(** * CopilotKit: the CrewAI flow adapter ([sdk-python/copilotkit/crewai_agent.py])

    A shallow embedding of the event-translation core of [CrewAIAgent]:
    [filter_state], [predict_state], [handle_crewai_flow_event] and the
    relay loop of [execute_flow], followed by the properties of the
    natural-language specification that concern them.

    Conventions of the embedding.
    - Python dictionaries are finite maps [gmap string _]; equality of maps
      is equality of dictionaries (same keys, same values).
    - A Python function that mutates [execution_state] and may raise is a
      function from the state to an outcome paired with the state it leaves
      behind, so that a mutation made before a [raise] stays visible.
    - [print] calls only write diagnostics to standard output and are left
      out; no other effect of the source is dropped. *)

From stdpp Require Import base option list strings gmap fin_maps.
From Stdlib Require Import Ascii String.

Open Scope string_scope.
Open Scope list_scope.
Set Warnings "-register-all".

(** ** Data model *)

(** The values a flow state, a tool-call argument object or a predicted
    state can hold: what [json.loads] produces and [json.dumps] accepts.  A
    number with a fraction or an exponent is kept as its literal. *)
Inductive value : Type :=
| VNone
| VBool (b : bool)
| VNum (n : Z)
| VFloat (literal : string)
| VStr (s : string)
| VList (l : list value)
| VDict (d : gmap string value).

(** [x is not None] *)
Definition is_not_None (v : value) : bool :=
  match v with VNone => false | _ => true end.

(** Exceptions the modelled code raises. *)
Inductive exn : Type :=
| ValueError (msg : string)
| AttributeError (msg : string).

(** The outcome of a call: a returned value or a raised exception. *)
Inductive outcome (A : Type) : Type :=
| Returned (a : A)
| Raised (e : exn).
Arguments Returned {A} a.
Arguments Raised {A} e.

(** One entry of [predict_state_configuration]: the tool whose arguments are
    mirrored (read with [v["tool_name"]], so it has to be present) and,
    optionally, the single argument to extract ([v.get("tool_argument")] is
    [None] when the field is absent). *)
Record PredictConfig : Type := {
  tool_name : string;
  tool_argument : option string
}.

(** [CrewAIFlowExecutionState].  [predict_state_configuration] is kept as
    the list of its [items()], in the dictionary's iteration order. *)
Record CrewAIFlowExecutionState : Type := {
  should_exit : bool;
  node_name : string;
  is_finished : bool;
  predict_state_configuration : list (string * PredictConfig);
  predicted_state : gmap string value;
  argument_buffer : string;
  current_tool_call : option string
}.

Definition set_should_exit (b : bool) (es : CrewAIFlowExecutionState) :=
  {| should_exit := b; node_name := node_name es; is_finished := is_finished es;
     predict_state_configuration := predict_state_configuration es;
     predicted_state := predicted_state es; argument_buffer := argument_buffer es;
     current_tool_call := current_tool_call es |}.

Definition set_node_name (n : string) (es : CrewAIFlowExecutionState) :=
  {| should_exit := should_exit es; node_name := n; is_finished := is_finished es;
     predict_state_configuration := predict_state_configuration es;
     predicted_state := predicted_state es; argument_buffer := argument_buffer es;
     current_tool_call := current_tool_call es |}.

Definition set_is_finished (b : bool) (es : CrewAIFlowExecutionState) :=
  {| should_exit := should_exit es; node_name := node_name es; is_finished := b;
     predict_state_configuration := predict_state_configuration es;
     predicted_state := predicted_state es; argument_buffer := argument_buffer es;
     current_tool_call := current_tool_call es |}.

Definition set_predict_state_configuration (c : list (string * PredictConfig))
    (es : CrewAIFlowExecutionState) :=
  {| should_exit := should_exit es; node_name := node_name es; is_finished := is_finished es;
     predict_state_configuration := c;
     predicted_state := predicted_state es; argument_buffer := argument_buffer es;
     current_tool_call := current_tool_call es |}.

Definition set_predicted_state (p : gmap string value) (es : CrewAIFlowExecutionState) :=
  {| should_exit := should_exit es; node_name := node_name es; is_finished := is_finished es;
     predict_state_configuration := predict_state_configuration es;
     predicted_state := p; argument_buffer := argument_buffer es;
     current_tool_call := current_tool_call es |}.

Definition set_argument_buffer (b : string) (es : CrewAIFlowExecutionState) :=
  {| should_exit := should_exit es; node_name := node_name es; is_finished := is_finished es;
     predict_state_configuration := predict_state_configuration es;
     predicted_state := predicted_state es; argument_buffer := b;
     current_tool_call := current_tool_call es |}.

Definition set_current_tool_call (c : option string) (es : CrewAIFlowExecutionState) :=
  {| should_exit := should_exit es; node_name := node_name es; is_finished := is_finished es;
     predict_state_configuration := predict_state_configuration es;
     predicted_state := predicted_state es; argument_buffer := argument_buffer es;
     current_tool_call := c |}.

(** ** [filter_state] *)

(** [exclude_keys or ["messages", "id"]]: [None] and the empty list are both
    falsy, so both select the default. *)
Definition effective_exclude_keys (exclude_keys : option (list string)) : list string :=
  match exclude_keys with
  | None | Some [] => ["messages"; "id"]
  | Some l => l
  end.

(** [{k: v for k, v in state.items() if k not in exclude_keys}] *)
Definition filter_state (state : gmap string value)
    (exclude_keys : option (list string)) : gmap string value :=
  filter (λ kv, kv.1 ∉ effective_exclude_keys exclude_keys) state.


(** ** The tolerant JSON parser

    [predict_state] hands the accumulated argument text to
    [PartialJSONParser().parse], a third-party parser whose code is not
    among the sources.  The adapter is therefore modelled over an arbitrary
    parser (the variable [parse] below, [None] standing for a raised
    exception), and every general property holds for every parser.  The
    concrete parser [partial_json_parse] that follows is used where a
    property has to be evaluated on actual text. *)

Definition is_ws (c : ascii) : bool :=
  (c =? " ")%char || (c =? "009")%char || (c =? "010")%char || (c =? "013")%char.

Fixpoint skip_ws (s : string) : string :=
  match s with
  | String c s' => if is_ws c then skip_ws s' else s
  | EmptyString => s
  end.

(** The character a one-letter escape stands for. *)
Definition unescape (c : ascii) : option ascii :=
  if (c =? "034")%char then Some "034"%char
  else if (c =? "\")%char then Some "\"%char
  else if (c =? "/")%char then Some "/"%char
  else if (c =? "n")%char then Some "010"%char
  else if (c =? "t")%char then Some "009"%char
  else if (c =? "r")%char then Some "013"%char
  else if (c =? "b")%char then Some "008"%char
  else if (c =? "f")%char then Some "012"%char
  else None.

Definition hex_digit (c : ascii) : option N :=
  let n := N_of_ascii c in
  if (48 <=? n)%N && (n <=? 57)%N then Some (n - 48)%N
  else if (65 <=? n)%N && (n <=? 70)%N then Some (n - 55)%N
  else if (97 <=? n)%N && (n <=? 102)%N then Some (n - 87)%N
  else None.

(** The bytes of a code point below 65536 that is no surrogate. *)
Definition utf8 (cp : N) : option string :=
  if (cp <? 128)%N then Some (String (ascii_of_N cp) EmptyString)
  else if (cp <? 2048)%N then
    Some (String (ascii_of_N (192 + cp / 64))
            (String (ascii_of_N (128 + cp mod 64)) EmptyString))
  else if (55296 <=? cp)%N && (cp <=? 57343)%N then None
  else
    Some (String (ascii_of_N (224 + cp / 4096))
            (String (ascii_of_N (128 + (cp / 64) mod 64))
               (String (ascii_of_N (128 + cp mod 64)) EmptyString))).

(** Result of reading a string after its opening quote: the decoded text
    and what follows the closing quote; no closing quote before the text
    ends; or a text no string can start with. *)
Inductive scanned_string : Type :=
| StringComplete (text rest : string)
| StringCutOff
| StringInvalid.

Fixpoint scan_string (s : string) (acc : string) : scanned_string :=
  match s with
  | EmptyString => StringCutOff
  | String c s' =>
      if (c =? "034")%char then StringComplete acc s'
      else if (c =? "\")%char then
        match s' with
        | EmptyString => StringCutOff
        | String e s'' =>
            if (e =? "u")%char then
              match s'' with
              | String h1 (String h2 (String h3 (String h4 s4))) =>
                  match hex_digit h1, hex_digit h2, hex_digit h3, hex_digit h4 with
                  | Some d1, Some d2, Some d3, Some d4 =>
                      match utf8 (((d1 * 16 + d2) * 16 + d3) * 16 + d4) with
                      | Some bytes => scan_string s4 (acc +:+ bytes)
                      | None => StringInvalid
                      end
                  | _, _, _, _ => StringInvalid
                  end
              | _ => StringCutOff
              end
            else
              match unescape e with
              | Some ch => scan_string s'' (acc +:+ String ch EmptyString)
              | None => StringInvalid
              end
        end
      else if (N_of_ascii c <? 32)%N then StringInvalid
      else scan_string s' (acc +:+ String c EmptyString)
  end.

Definition is_digit (c : ascii) : bool :=
  (48 <=? N_of_ascii c)%N && (N_of_ascii c <=? 57)%N.

Definition is_number_char (c : ascii) : bool :=
  is_digit c || (c =? ".")%char || (c =? "-")%char || (c =? "+")%char
  || (c =? "e")%char || (c =? "E")%char.

(** The longest leading run of number characters, and the rest. *)
Fixpoint number_run (s : string) : string * string :=
  match s with
  | String c s' =>
      if is_number_char c then
        let '(run, rest) := number_run s' in (String c run, rest)
      else (EmptyString, s)
  | EmptyString => (EmptyString, EmptyString)
  end.

Fixpoint all_digits (s : string) : bool :=
  match s with
  | String c s' => is_digit c && all_digits s'
  | EmptyString => true
  end.

Fixpoint digits_value (s : string) (acc : Z) : Z :=
  match s with
  | String c s' => digits_value s' (10 * acc + (Z.of_N (N_of_ascii c) - 48))%Z
  | EmptyString => acc
  end.

(** A run of digits, and what follows it. *)
Fixpoint digit_run (s : string) : string * string :=
  match s with
  | String c s' =>
      if is_digit c then let '(run, rest) := digit_run s' in (String c run, rest)
      else (EmptyString, s)
  | EmptyString => (EmptyString, EmptyString)
  end.

Definition nonempty (s : string) : bool :=
  match s with EmptyString => false | _ => true end.

Definition strip_sign (s : string) : string :=
  match s with
  | String c s' => if (c =? "-")%char || (c =? "+")%char then s' else s
  | EmptyString => s
  end.

(** [digits [. digits] [e [sign] digits]], after an optional minus. *)
Definition is_float_literal (s : string) : bool :=
  let s := match s with
           | String c s' => if (c =? "-")%char then s' else s
           | EmptyString => s
           end in
  let '(whole, s1) := digit_run s in
  nonempty whole &&
  let after_fraction :=
    match s1 with
    | String c s2 =>
        if (c =? ".")%char then
          let '(fraction, s3) := digit_run s2 in
          if nonempty fraction then Some s3 else None
        else Some s1
    | EmptyString => Some s1
    end in
  match after_fraction with
  | None => false
  | Some EmptyString => true
  | Some (String c s4) =>
      ((c =? "e")%char || (c =? "E")%char) &&
      let '(exponent, s5) := digit_run (strip_sign s4) in
      nonempty exponent && negb (nonempty s5)
  end.

Definition last_char (s : string) : option ascii :=
  match rev (list_ascii_of_string s) with
  | c :: _ => Some c
  | [] => None
  end.

(** A number at the front of [s]. *)
Definition parse_number (s : string) : option (value * string) :=
  let '(run, rest) := number_run s in
  match last_char run with
  | None => None
  | Some c =>
      if (c =? ".")%char || (c =? "-")%char then Some (VStr run, EmptyString)
      else
        match run with
        | String sign digits =>
            if (sign =? "-")%char && nonempty digits && all_digits digits then
              Some (VNum (- digits_value digits 0)%Z, rest)
            else if all_digits run then Some (VNum (digits_value run 0), rest)
            else if is_float_literal run then Some (VFloat run, rest)
            else None
        | EmptyString => None
        end
  end.

(** [word] at the front of [s]. *)
Fixpoint starts_with (word s : string) : option string :=
  match word with
  | EmptyString => Some s
  | String w word' =>
      match s with
      | String c s' => if (c =? w)%char then starts_with word' s' else None
      | EmptyString => None
      end
  end.

Definition parse_literal (word : string) (v : value) (s : string)
  : option (value * string) :=
  match starts_with word s with
  | Some rest => Some (v, rest)
  | None => None
  end.

(** The members of an object, after the opening brace; [pv] reads a
    value.  The members read are returned when the text ends. *)
Fixpoint parse_object (pv : string → option (value * string)) (n : nat) (s : string)
    (acc : gmap string value) : option (gmap string value * string) :=
  match n with
  | O => None
  | S n' =>
      match skip_ws s with
      | EmptyString => Some (acc, EmptyString)
      | String c s1 =>
          if (c =? "}")%char then Some (acc, s1)
          else
            match pv (String c s1) with
            | Some (VStr key, s2) =>
                match skip_ws s2 with
                | EmptyString => Some (<[key := VNone]> acc, EmptyString)
                | String c2 s3 =>
                    if (c2 =? "}")%char then Some (<[key := VNone]> acc, String c2 s3)
                    else if (c2 =? ":")%char then
                      match skip_ws s3 with
                      | EmptyString => Some (<[key := VNone]> acc, EmptyString)
                      | String c3 s4 =>
                          if (c3 =? ",")%char then Some (<[key := VNone]> acc, s4)
                          else if (c3 =? "}")%char then
                            Some (<[key := VNone]> acc, String c3 s4)
                          else
                            match pv (String c3 s4) with
                            | Some (v, s5) =>
                                let acc' := <[key := v]> acc in
                                match skip_ws s5 with
                                | String c5 s6 =>
                                    if (c5 =? ",")%char then parse_object pv n' s6 acc'
                                    else parse_object pv n' (String c5 s6) acc'
                                | EmptyString => Some (acc', EmptyString)
                                end
                            | None => None
                            end
                      end
                    else None
                end
            | _ => None
            end
      end
  end.

(** The elements of an array, after the opening bracket. *)
Fixpoint parse_array (pv : string → option (value * string)) (n : nat) (s : string)
    (acc : list value) : option (list value * string) :=
  match n with
  | O => None
  | S n' =>
      match skip_ws s with
      | EmptyString => Some (acc, EmptyString)
      | String c s1 =>
          if (c =? "]")%char then Some (acc, s1)
          else
            match pv (String c s1) with
            | Some (v, s2) =>
                match skip_ws s2 with
                | String c2 s3 =>
                    if (c2 =? ",")%char then parse_array pv n' s3 (acc ++ [v])
                    else parse_array pv n' (String c2 s3) (acc ++ [v])
                | EmptyString => Some (acc ++ [v], EmptyString)
                end
            | None => None
            end
      end
  end.

(** A value at the front of [s], and the text after it. *)
Fixpoint parse_any (fuel : nat) (s : string) : option (value * string) :=
  match fuel with
  | O => None
  | S fuel' =>
      match skip_ws s with
      | EmptyString => None
      | String c s' =>
          if (c =? "{")%char then
            match parse_object (parse_any fuel') (S (String.length s')) s' ∅ with
            | Some (d, rest) => Some (VDict d, rest)
            | None => None
            end
          else if (c =? "[")%char then
            match parse_array (parse_any fuel') (S (String.length s')) s' [] with
            | Some (l, rest) => Some (VList l, rest)
            | None => None
            end
          else if (c =? "034")%char then
            match scan_string s' EmptyString with
            | StringComplete text rest => Some (VStr text, rest)
            | StringCutOff => Some (VStr s', EmptyString)
            | StringInvalid => None
            end
          else if (c =? "t")%char then parse_literal "true" (VBool true) (String c s')
          else if (c =? "f")%char then parse_literal "false" (VBool false) (String c s')
          else if (c =? "n")%char then parse_literal "null" VNone (String c s')
          else if is_digit c || (c =? ".")%char || (c =? "-")%char then
            parse_number (String c s')
          else None
      end
  end.

(** Modelled from the spec: the tolerant parser of section 4.1, which is
    the third-party [partialjson] package and is missing from the sources.
    It returns the most complete deserialisation that the leading portion
    of the text allows, and fails ([None], the failure that [predict_state]
    catches) only where that portion is ill-formed: a character no value
    starts with, a key that is no string, a missing colon, an unknown
    escape, an ill-formed number or word.  Text after the value is ignored,
    and the empty text gives the empty object.

    Where the text stops inside a token the result follows the package,
    which on this point departs from the example of section 4.1:
    - a string that is cut off is kept as the text read so far, escapes
      left as written (the example drops the member);
    - a key that is cut off, or has no value yet, is kept with [None];
    - an object or an array that is cut off is kept with the members read;
    - a number that ends in a point or a minus sign is kept as a string,
      any other number at the end of the text as that number.

    Strings are byte strings, code points above 127 in their UTF-8
    encoding; an escaped surrogate is taken as ill-formed.  Keys are
    strings.  Numbers are integers or, with a fraction or an exponent,
    kept as their literal. *)
Definition partial_json_parse (s : string) : option value :=
  match s with
  | EmptyString => Some (VDict ∅)
  | _ =>
      match parse_any (S (String.length s)) s with
      | Some (v, _) => Some v
      | None => None
      end
  end.

(** ** Protocol events ([copilotkit.protocol]) *)

(** A text carried by a protocol event: given as such, or produced by
    [json.dumps] from a value.  The serialiser is kept symbolic: the text it
    produces is named by the value it is applied to. *)
Inductive json_text : Type :=
| Verbatim (s : string)
| json_dumps (v : value).

(** The message built by [agent_state_message]. *)
Record AgentStateMessage : Type := {
  m_thread_id : string;
  m_agent_name : string;
  m_node_name : string;
  m_run_id : string;
  m_active : bool;
  m_role : string;
  m_state : json_text;
  m_running : bool
}.

Definition agent_state_message (thread_id agent_name node_name run_id : string)
    (active : bool) (role : string) (state : json_text) (running : bool)
  : AgentStateMessage :=
  {| m_thread_id := thread_id; m_agent_name := agent_name; m_node_name := node_name;
     m_run_id := run_id; m_active := active; m_role := role; m_state := state;
     m_running := running |}.

(** Outgoing protocol events, before serialisation. *)
Inductive RuntimeEvent : Type :=
| TextMessageStart (message_id : string) (parent_message_id : option string)
| TextMessageContent (message_id content : string)
| TextMessageEnd (message_id : string)
| ActionExecutionStart (action_execution_id action_name : string)
    (parent_message_id : option string)
| ActionExecutionArgs (action_execution_id : string) (args : json_text)
| ActionExecutionEnd (action_execution_id : string)
| AgentState (m : AgentStateMessage).

Definition text_message_start := TextMessageStart.
Definition text_message_content := TextMessageContent.
Definition text_message_end := TextMessageEnd.
Definition action_execution_start := ActionExecutionStart.
Definition action_execution_args := ActionExecutionArgs.
Definition action_execution_end := ActionExecutionEnd.

(** [emit_runtime_events]: one batch holding its arguments in call order. *)
Definition emit_runtime_events (events : list RuntimeEvent) : list RuntimeEvent := events.

(** ** Internal flow events ([copilotkit.crewai]) *)

Inductive CopilotKitCrewAIFlowEventType : Type :=
| EMIT_MESSAGE | EMIT_TOOL_CALL | EMIT_STATE | EXIT | PREDICT_STATE
| METHOD_EXECUTION_STARTED | METHOD_EXECUTION_FINISHED
| FLOW_EXECUTION_STARTED | FLOW_EXECUTION_FINISHED | FLOW_EXECUTION_ERROR
| TEXT_MESSAGE_START | TEXT_MESSAGE_CONTENT | TEXT_MESSAGE_END
| ACTION_EXECUTION_START | ACTION_EXECUTION_ARGS | ACTION_EXECUTION_END.

(** [event_data["error"]]: an exception object or a text. *)
Inductive error_info : Type :=
| ErrorException (trace : string)
| ErrorText (text : string).

(** [event_data]: a dictionary whose ["type"] entry selects the handler
    branch; each constructor carries the entries that branch reads.
    [UnknownEvent] is an event whose ["type"] equals none of the sixteen
    members compared against; it carries that value as formatted in the
    error message. *)
Inductive event_data : Type :=
| EmitMessage (message_id message : string)
| EmitToolCall (message_id name : string) (args : value)
| EmitState (state : gmap string value)
| Exit
| PredictState (config : list (string * PredictConfig))
| MethodExecutionStarted (name : string)
| MethodExecutionFinished
| FlowExecutionStarted
| FlowExecutionFinished
| FlowExecutionError (error : error_info)
| TextMessageStartEvent (message_id : string) (parent_message_id : option string)
| TextMessageContentEvent (message_id content : string)
| TextMessageEndEvent (message_id : string)
| ActionExecutionStartEvent (action_execution_id action_name : string)
    (parent_message_id : option string)
| ActionExecutionArgsEvent (action_execution_id args : string)
| ActionExecutionEndEvent (action_execution_id : string)
| UnknownEvent (type : string).

(** [event_data["type"]], when it is a member of the enumeration. *)
Definition event_type (e : event_data) : option CopilotKitCrewAIFlowEventType :=
  match e with
  | EmitMessage _ _ => Some EMIT_MESSAGE
  | EmitToolCall _ _ _ => Some EMIT_TOOL_CALL
  | EmitState _ => Some EMIT_STATE
  | Exit => Some EXIT
  | PredictState _ => Some PREDICT_STATE
  | MethodExecutionStarted _ => Some METHOD_EXECUTION_STARTED
  | MethodExecutionFinished => Some METHOD_EXECUTION_FINISHED
  | FlowExecutionStarted => Some FLOW_EXECUTION_STARTED
  | FlowExecutionFinished => Some FLOW_EXECUTION_FINISHED
  | FlowExecutionError _ => Some FLOW_EXECUTION_ERROR
  | TextMessageStartEvent _ _ => Some TEXT_MESSAGE_START
  | TextMessageContentEvent _ _ => Some TEXT_MESSAGE_CONTENT
  | TextMessageEndEvent _ => Some TEXT_MESSAGE_END
  | ActionExecutionStartEvent _ _ _ => Some ACTION_EXECUTION_START
  | ActionExecutionArgsEvent _ _ => Some ACTION_EXECUTION_ARGS
  | ActionExecutionEndEvent _ => Some ACTION_EXECUTION_END
  | UnknownEvent _ => None
  end.

(** The Python type name in the message of an [AttributeError]. *)
Definition type_name (v : value) : string :=
  match v with
  | VNone => "NoneType" | VBool _ => "bool" | VNum _ => "int"
  | VFloat _ => "float" | VStr _ => "str" | VList _ => "list" | VDict _ => "dict"
  end.

(** ** The state predictor *)

(** The loop of [predict_state] over [predict_state_configuration.items()]:
    [predicted] is [execution_state["predicted_state"]], updated in place,
    and [emit_update] the flag.  [current_arguments.get] exists only on a
    dictionary; on any other value the loop stops with [AttributeError],
    the entries written before it staying written. *)
Fixpoint predict_loop (call : option string) (current_arguments : value)
    (items : list (string * PredictConfig)) (predicted : gmap string value)
    (emit_update : bool) : option exn * gmap string value * bool :=
  match items with
  | [] => (None, predicted, emit_update)
  | (k, v) :: rest =>
      if decide (Some (tool_name v) = call) then
        match tool_argument v with
        | Some tool_argument =>
            match current_arguments with
            | VDict d =>
                let argument_value := default VNone (d !! tool_argument) in
                if is_not_None argument_value
                then predict_loop call current_arguments rest
                       (<[k := argument_value]> predicted) true
                else predict_loop call current_arguments rest predicted emit_update
            | other =>
                (Some (AttributeError
                         ("'" +:+ type_name other +:+ "' object has no attribute 'get'")),
                 predicted, emit_update)
            end
        | None =>
            predict_loop call current_arguments rest
              (<[k := current_arguments]> predicted) true
        end
      else predict_loop call current_arguments rest predicted emit_update
  end.

(** [{**state, **predicted}]: the entries of [predicted] win. *)
Definition merge (state predicted : gmap string value) : gmap string value :=
  predicted ∪ state.

Section Adapter.

(** [PartialJSONParser().parse]; [None] when it raises. *)
Variable parse : string → option value.
(** [crewai_flow_messages_to_copilotkit], from [copilotkit.crewai]. *)
Variable crewai_flow_messages_to_copilotkit : value → value.

Definition predict_state (thread_id agent_name run_id : string)
    (event_data : event_data) (execution_state : CrewAIFlowExecutionState)
    (state : gmap string value)
  : outcome (option AgentStateMessage) * CrewAIFlowExecutionState :=
  match event_data with
  | ActionExecutionStartEvent _ action_name _ =>
      (Returned None,
       set_argument_buffer "" (set_current_tool_call (Some action_name) execution_state))
  | ActionExecutionArgsEvent _ args =>
      let es1 :=
        set_argument_buffer (argument_buffer execution_state +:+ args) execution_state in
      let tool_names :=
        map (λ config, Some (tool_name config.2)) (predict_state_configuration es1) in
      if decide (current_tool_call es1 ∈ tool_names) then
        match parse (argument_buffer es1) with
        | None => (Returned None, es1)
        | Some current_arguments =>
            let '(raised, predicted, emit_update) :=
              predict_loop (current_tool_call es1) current_arguments
                (predict_state_configuration es1) (predicted_state es1) false in
            let es2 := set_predicted_state predicted es1 in
            match raised with
            | Some e => (Raised e, es2)
            | None =>
                if emit_update then
                  (Returned (Some
                     (agent_state_message thread_id agent_name (node_name es2) run_id
                        true "assistant"
                        (json_dumps (VDict (filter_state (merge state (predicted_state es2)) None)))
                        true)),
                   es2)
                else (Returned None, es2)
            end
        end
      else (Returned None, es1)
  | _ => (Returned None, execution_state)
  end.

(** ** The event mapper *)

(** [{k: v for k, v in state.items() if k != "messages"}] *)
Definition without_messages (state : gmap string value) : gmap string value :=
  filter (λ kv, kv.1 ≠ "messages") state.

Definition handle_crewai_flow_event (event_data : event_data)
    (thread_id agent_name : string) (state : gmap string value) (run_id : string)
    (execution_state : CrewAIFlowExecutionState)
  : outcome (option (list RuntimeEvent)) * CrewAIFlowExecutionState :=
  match event_data with
  | EmitMessage message_id message =>
      (Returned (Some (emit_runtime_events
         [text_message_start message_id None;
          text_message_content message_id message;
          text_message_end message_id])),
       execution_state)
  | EmitToolCall message_id name args =>
      (Returned (Some (emit_runtime_events
         [action_execution_start message_id name None;
          action_execution_args message_id (json_dumps args);
          action_execution_end message_id])),
       execution_state)
  | EmitState event_state =>
      (Returned (Some (emit_runtime_events
         [AgentState (agent_state_message thread_id agent_name
            (node_name execution_state) run_id true "assistant"
            (json_dumps (VDict (filter_state event_state None))) true)])),
       execution_state)
  | Exit => (Returned None, set_should_exit true execution_state)
  | PredictState config =>
      (Returned None, set_predict_state_configuration config execution_state)
  | MethodExecutionStarted name =>
      let es1 := set_node_name name execution_state in
      let state := without_messages state in
      (Returned (Some (emit_runtime_events
         [AgentState (agent_state_message thread_id agent_name (node_name es1) run_id
            true "assistant" (json_dumps (VDict (filter_state state None))) true)])),
       es1)
  | MethodExecutionFinished =>
      let es1 :=
        set_predicted_state ∅
          (set_argument_buffer ""
             (set_current_tool_call None
                (set_predict_state_configuration [] execution_state))) in
      let state := without_messages state in
      (Returned (Some (emit_runtime_events
         [AgentState (agent_state_message thread_id agent_name (node_name es1) run_id
            false "assistant" (json_dumps (VDict (filter_state state None))) true)])),
       es1)
  | FlowExecutionStarted => (Returned None, execution_state)
  | FlowExecutionFinished => (Returned None, set_is_finished true execution_state)
  | FlowExecutionError _ => (Returned None, set_is_finished true execution_state)
  | TextMessageStartEvent message_id parent_message_id =>
      (Returned (Some (emit_runtime_events
         [text_message_start message_id parent_message_id])),
       execution_state)
  | TextMessageContentEvent message_id content =>
      (Returned (Some (emit_runtime_events [text_message_content message_id content])),
       execution_state)
  | TextMessageEndEvent message_id =>
      (Returned (Some (emit_runtime_events [text_message_end message_id])),
       execution_state)
  | ActionExecutionStartEvent action_execution_id action_name parent_message_id =>
      let events :=
        [action_execution_start action_execution_id action_name parent_message_id] in
      match predict_state thread_id agent_name run_id event_data execution_state state with
      | (Raised e, es1) => (Raised e, es1)
      | (Returned predicted_state_message, es1) =>
          let events :=
            match predicted_state_message with
            | Some m => events ++ [AgentState m]
            | None => events
            end in
          (Returned (Some (emit_runtime_events events)), es1)
      end
  | ActionExecutionArgsEvent action_execution_id args =>
      let events := [action_execution_args action_execution_id (Verbatim args)] in
      match predict_state thread_id agent_name run_id event_data execution_state state with
      | (Raised e, es1) => (Raised e, es1)
      | (Returned predicted_state_message, es1) =>
          let events :=
            match predicted_state_message with
            | Some m => events ++ [AgentState m]
            | None => events
            end in
          (Returned (Some (emit_runtime_events events)), es1)
      end
  | ActionExecutionEndEvent action_execution_id =>
      (Returned (Some (emit_runtime_events [action_execution_end action_execution_id])),
       execution_state)
  | UnknownEvent type =>
      (Raised (ValueError ("Unknown event type: " +:+ type)), execution_state)
  end.

(** ** The run driver *)

(** How a run of the relay loop, or of [execute_flow], ends: it completes,
    an exception leaves it, or it waits for ever on [local_queue.get()]
    because the worker produced no terminal event. *)
Inductive run_end : Type :=
| Done
| Failed (e : exn)
| Waiting.

(** The [while True] loop of [execute_flow].  [local_queue] lists, in the
    order the worker produced them, the events taken from the queue, each
    with the value of [flow.state] at the moment it is handled.  The result
    is the batches yielded, how the loop ended and the execution state. *)
Fixpoint relay (thread_id agent_name run_id : string)
    (local_queue : list (event_data * gmap string value))
    (execution_state : CrewAIFlowExecutionState)
  : list (list RuntimeEvent) * run_end * CrewAIFlowExecutionState :=
  match local_queue with
  | [] => ([], Waiting, execution_state)
  | (event_data, state) :: rest =>
      match handle_crewai_flow_event event_data thread_id agent_name state run_id
              execution_state with
      | (Raised e, es1) => ([], Failed e, es1)
      | (Returned json_lines, es1) =>
          let yielded := match json_lines with Some b => [b] | None => [] end in
          if is_finished es1 then (yielded, Done, es1)
          else
            let '(more, stop, es2) := relay thread_id agent_name run_id rest es1 in
            (yielded ++ more, stop, es2)
      end
  end.

(** The execution state [execute_flow] starts from. *)
Definition initial_execution_state : CrewAIFlowExecutionState :=
  {| should_exit := false; node_name := "start"; is_finished := false;
     predict_state_configuration := []; predicted_state := ∅;
     argument_buffer := ""; current_tool_call := None |}.

(** The snapshot [execute_flow] yields after [t.join()], from the final
    value of [flow.state]. *)
Definition final_state_message (thread_id agent_name run_id : string)
    (execution_state : CrewAIFlowExecutionState) (flow_state : gmap string value)
  : AgentStateMessage :=
  let state := flow_state in
  let state := alter crewai_flow_messages_to_copilotkit "messages" state in
  agent_state_message thread_id agent_name (node_name execution_state) run_id
    false "assistant" (json_dumps (VDict (filter_state state (Some ["id"]))))
    (negb (should_exit execution_state)).

(** The classes handed to the agent and the [merge_state] hook are opaque
    to the adapter. *)
Variables CrewClass FlowClass MergeState : Type.

Record CopilotKitConfig : Type := { merge_state : option MergeState }.

Record CrewAIAgent : Type := {
  name : string;
  description : option string;
  crew : option CrewClass;
  crew_input_key : string;
  flow : option FlowClass;
  copilotkit_config : CopilotKitConfig
}.

Definition is_None {A} (o : option A) : bool :=
  match o with None => true | Some _ => false end.

(** [Agent.__init__], the inherited constructor ([copilotkit.agent]): it
    takes the name and the description, and it may raise. *)
Variable Agent_init : string → option string → outcome unit.

(** [CrewAIAgent.__init__]: the inherited constructor runs first, and an
    exception it raises leaves the constructor. *)
Definition CrewAIAgent_init (name : string) (description : option string)
    (crew : option CrewClass) (crew_input_key : option string)
    (flow : option FlowClass) (copilotkit_config : option CopilotKitConfig)
  : outcome CrewAIAgent :=
  match Agent_init name description with
  | Raised e => Raised e
  | Returned _ =>
      if Bool.eqb (is_None crew) (is_None flow) then
        Raised (ValueError "Either crew or flow must be provided to CrewAIAgent")
      else
        Returned
          {| name := name; description := description; crew := crew;
             crew_input_key :=
               match crew_input_key with
               | None | Some "" => "input"
               | Some key => key
               end;
             flow := flow;
             copilotkit_config :=
               default {| merge_state := None |} copilotkit_config |}
  end.

(** [CrewAIAgent.execute_flow].  The worker thread, which runs the flow on
    a deep copy of the merged state, is represented by what it hands over:
    the queued events [local_queue] and the value [final_state] of
    [flow.state] once it is joined; the state merge and the conversion of
    the incoming messages only feed the worker.  [run_id] is the fresh
    identifier drawn for the run.  The result is the sequence of batches
    yielded and the way the generator ends. *)
Definition execute_flow (self : CrewAIAgent) (thread_id : option string)
    (run_id : string) (local_queue : list (event_data * gmap string value))
    (final_state : gmap string value) : list (list RuntimeEvent) * run_end :=
  match flow self with
  | None => ([], Failed (ValueError "Flow is not set"))
  | Some _ =>
      match thread_id with
      | None => ([], Failed (ValueError "Thread ID is required"))
      | Some thread_id =>
          let '(yielded, stop, execution_state) :=
            relay thread_id (name self) run_id local_queue initial_execution_state in
          match stop with
          | Done =>
              (yielded ++
                 [emit_runtime_events
                    [AgentState (final_state_message thread_id (name self) run_id
                                   execution_state final_state)]],
               Done)
          | other => (yielded, other)
          end
      end
  end.

(** ** Notions used to state the properties *)

(** The configuration entry [item] writes its key when the current tool
    call is [call] and the parsed arguments are [current_arguments]: its
    tool matches and either it mirrors the whole arguments or the argument
    it names is present and not [None]. *)
Definition entry_updates (call : option string) (current_arguments : value)
    (item : string * PredictConfig) : bool :=
  bool_decide (Some (tool_name item.2) = call) &&
  match tool_argument item.2 with
  | None => true
  | Some a =>
      match current_arguments with
      | VDict d => is_not_None (default VNone (d !! a))
      | _ => false
      end
  end.

(** The value an entry that writes stores under its key: the named
    argument, or the whole parsed arguments when it names none. *)
Definition written_value (current_arguments : value) (v : PredictConfig) : value :=
  match tool_argument v with
  | None => current_arguments
  | Some a =>
      match current_arguments with
      | VDict d => default VNone (d !! a)
      | _ => VNone
      end
  end.

(** The current tool call is named by some configuration entry. *)
Definition tracked (es : CrewAIFlowExecutionState) : Prop :=
  current_tool_call es ∈
    map (λ config : string * PredictConfig, Some (tool_name config.2))
      (predict_state_configuration es).

(** An argument fragment [args] updates at least one predicted key. *)
Definition key_updated (es : CrewAIFlowExecutionState) (args : string) : bool :=
  bool_decide (tracked es) &&
  match parse (argument_buffer es +:+ args) with
  | Some current_arguments =>
      existsb (entry_updates (current_tool_call es) current_arguments)
        (predict_state_configuration es)
  | None => false
  end.

(** The events that end a run. *)
Definition is_terminal (e : event_data) : bool :=
  match e with
  | FlowExecutionFinished | FlowExecutionError _ => true
  | _ => false
  end.

(** An explicit request to exit. *)
Definition is_exit (e : event_data) : bool :=
  match e with Exit => true | _ => false end.

(** The argument buffer an event leaves behind, given the buffer before. *)
Definition buffer_after (e : event_data) (buffer : string) : string :=
  match e with
  | ActionExecutionStartEvent _ _ _ | MethodExecutionFinished => ""
  | ActionExecutionArgsEvent _ args => buffer +:+ args
  | _ => buffer
  end.

End Adapter.

Arguments merge_state {MergeState} _.
Arguments name {CrewClass FlowClass MergeState} _.
Arguments description {CrewClass FlowClass MergeState} _.
Arguments crew {CrewClass FlowClass MergeState} _.
Arguments crew_input_key {CrewClass FlowClass MergeState} _.
Arguments flow {CrewClass FlowClass MergeState} _.
Arguments copilotkit_config {CrewClass FlowClass MergeState} _.
Arguments CrewAIAgent_init {CrewClass FlowClass MergeState} Agent_init _ _ _ _ _ _.
Arguments execute_flow parse crewai_flow_messages_to_copilotkit
  {CrewClass FlowClass MergeState} _ _ _ _ _.

(** ** The streaming scenario of the specification *)

(** The double-quote character, as a one-character text. *)
Definition dq : string := String "034"%char EmptyString.

(** The three argument fragments: an opening brace and the start of the key
    [text]; the rest of the key and the start of its value; the rest of the
    value and the closing brace. *)
Definition fragment_1 : string := "{" +:+ dq +:+ "te".
Definition fragment_2 : string := "xt" +:+ dq +:+ ": " +:+ dq +:+ "hel".
Definition fragment_3 : string := "lo" +:+ dq +:+ "}".

(** [{"summary": {"tool_name": "save", "tool_argument": "text"}}] *)
Definition summary_configuration : list (string * PredictConfig) :=
  [("summary", {| tool_name := "save"; tool_argument := Some "text" |})].

(** The parser gave nothing to extract for argument [a]: it failed, or it
    returned an object in which [a] is absent or [None]. *)
Definition lacks_argument (a : string) (r : option value) : Prop :=
  r = None ∨ ∃ d, r = Some (VDict d) ∧ default VNone (d !! a) = VNone.

(** The argument text once the three fragments have arrived. *)
Definition complete_arguments : string := (fragment_1 +:+ fragment_2) +:+ fragment_3.

(** The execution state of a run that has received the predict-state
    configuration of the scenario. *)
Definition configured_state : CrewAIFlowExecutionState :=
  set_predict_state_configuration summary_configuration initial_execution_state.

(** The same, once the tool call [save] has started. *)
Definition tracking_state : CrewAIFlowExecutionState :=
  set_argument_buffer "" (set_current_tool_call (Some "save") configured_state).

(** ** Readings of the specification compared with the code *)

(** The snapshot state of the predictor as the specification words it: the
    flow state without the excluded keys, merged with the predicted state,
    whose keys all survive. *)
Definition claimed_snapshot_state (state predicted : gmap string value)
  : gmap string value :=
  predicted ∪ filter_state state None.

(** The snapshot state of a method-started event as the specification
    words it: the flow state with only ["messages"] removed. *)
Definition claimed_method_started_state (state : gmap string value)
  : gmap string value :=
  delete "messages" state.

(** A configuration that mirrors the argument [text] of [save] into the
    predicted key ["messages"]. *)
Definition messages_configuration : list (string * PredictConfig) :=
  [("messages", {| tool_name := "save"; tool_argument := Some "text" |})].

(** [{"text": "hi"}] *)
Definition hi_arguments : string :=
  "{" +:+ dq +:+ "text" +:+ dq +:+ ": " +:+ dq +:+ "hi" +:+ dq +:+ "}".

(** An agent in flow mode, its classes being left abstract. *)
Definition flow_agent : CrewAIAgent unit unit unit :=
  {| name := "agent"; description := None; crew := None; crew_input_key := "input";
     flow := Some tt; copilotkit_config := {| merge_state := None |} |}.

(** The queue of the specification's scenario: a step [a] starts, emits a
    state, finishes, and the flow finishes; the flow state holds [x],
    a message history and an identifier throughout. *)
Definition scenario_flow_state : gmap string value :=
  {["x" := VNum 1; "messages" := VList []; "id" := VStr "7"]}.

Definition scenario_queue : list (event_data * gmap string value) :=
  [(MethodExecutionStarted "a", scenario_flow_state);
   (EmitState {["x" := VNum 1]}, scenario_flow_state);
   (MethodExecutionFinished, scenario_flow_state);
   (FlowExecutionFinished, scenario_flow_state)].

(** Modelled from the spec: the inherited constructor [Agent.__init__] of
    [copilotkit.agent], which is missing from the sources and of which the
    specification says nothing.  In the examples it is taken to accept a
    name made of letters, digits, underscores and hyphens, and to reject
    any other name. *)
Definition agent_name_char (c : ascii) : bool :=
  let n := N_of_ascii c in
  ((48 <=? n)%N && (n <=? 57)%N) || ((65 <=? n)%N && (n <=? 90)%N)
  || ((97 <=? n)%N && (n <=? 122)%N) || (c =? "_")%char || (c =? "-")%char.

Definition checked_agent_init (name : string) (description : option string)
  : outcome unit :=
  if nonempty name && forallb agent_name_char (list_ascii_of_string name)
  then Returned tt
  else Raised (ValueError ("Invalid agent name '" +:+ name +:+ "'")).

(** The accumulated text of an array that is cut off. *)
Definition array_prefix : string := "[1, 2".

(** An argument text that is ill-formed before it ends: after the key
    [text] a word stands where the colon should. *)
Definition malformed_arguments : string :=
  "{" +:+ dq +:+ "text" +:+ dq +:+ " oops".

(** ** The state merge, crew mode and the dispatch of [execute] *)

(** [len(messages) > 0] and [messages[0]] is a system message:
    ["role" in messages[0] and messages[0]["role"] == "system"]. *)
Definition is_system (m : gmap string value) : bool :=
  match m !! "role" with
  | Some (VStr r) => String.eqb r "system"
  | _ => false
  end.

(** The step with which both [crewai_flow_default_merge_state] and
    [execute_crew] begin: [messages = messages[1:]] when the first message
    is a system message. *)
Definition without_leading_system (messages : list (gmap string value))
  : list (gmap string value) :=
  match messages with
  | m :: rest => if is_system m then rest else messages
  | [] => messages
  end.

(** [{"type": "function", "function": {**action}}] *)
Definition function_envelope (action : gmap string value) : value :=
  VDict {["type" := VStr "function"; "function" := VDict action]}.

(** [crewai_flow_default_merge_state]; [flow] and [agent_name] are
    accepted and not used. *)
Definition crewai_flow_default_merge_state {F : Type} (state : gmap string value)
    (flow : F) (messages : list (gmap string value))
    (actions : list (gmap string value)) (agent_name : string)
  : gmap string value :=
  let messages := without_leading_system messages in
  let actions := map function_envelope actions in
  <["copilotkit" := VDict {["actions" := VList actions]}]>
    (<["messages" := VList (map VDict messages)]> state).

(** A value of the [inputs] dictionary handed to [crew.kickoff]: the text
    input taken from a message, or the serialised chat messages. *)
Inductive crew_input : Type :=
| InputValue (v : value)
| InputJson (t : json_text).

(** The text [execute_crew] passes to the crew: the [content] of the last
    message, else its [result], else the empty text. *)
Definition crew_text_input (messages : list (gmap string value)) : value :=
  match last messages with
  | Some m =>
      match m !! "content" with
      | Some content => content
      | None =>
          match m !! "result" with
          | Some result => result
          | None => VStr ""
          end
      end
  | None => VStr ""
  end.

Section Crew.

Variable parse : string → option value.
Variable crewai_flow_messages_to_copilotkit : value → value.
(** [copilotkit_message_to_crewai_crew], from [copilotkit.crewai]. *)
Variable copilotkit_message_to_crewai_crew : gmap string value → value.
Variables CrewClass FlowClass MergeState : Type.
(** [self.crew().kickoff(inputs=inputs).raw]: the crew is user code. *)
Variable kickoff : CrewClass → gmap string crew_input → string.

(** The [inputs] dictionary of [execute_crew], built from the messages
    left after the leading system message is dropped.  The literal lists
    the key [crew_input_key] first, so the entry ["crew_chat_messages"]
    replaces it when the two keys are equal. *)
Definition crew_inputs (self : CrewAIAgent CrewClass FlowClass MergeState)
    (messages : list (gmap string value)) : gmap string crew_input :=
  let messages := without_leading_system messages in
  let crew_chat_messages :=
    json_dumps (VList (map copilotkit_message_to_crewai_crew messages)) in
  <["crew_chat_messages" := InputJson crew_chat_messages]>
    (<[crew_input_key self := InputValue (crew_text_input messages)]> ∅).

(** [CrewAIAgent.execute_crew]; [message_id] is the fresh identifier drawn
    for the reply. *)
Definition execute_crew (self : CrewAIAgent CrewClass FlowClass MergeState)
    (messages : list (gmap string value)) (message_id : string)
  : list (list RuntimeEvent) * run_end :=
  match crew self with
  | None => ([], Failed (ValueError "Crew is not set"))
  | Some crew_class =>
      let output := kickoff crew_class (crew_inputs self messages) in
      ([emit_runtime_events
          [text_message_start message_id None;
           text_message_content message_id output;
           text_message_end message_id]],
       Done)
  end.

(** [CrewAIAgent.execute]: [if self.crew] selects crew mode. *)
Definition execute (self : CrewAIAgent CrewClass FlowClass MergeState)
    (messages : list (gmap string value)) (thread_id : option string)
    (message_id run_id : string)
    (local_queue : list (event_data * gmap string value))
    (final_state : gmap string value) : list (list RuntimeEvent) * run_end :=
  match crew self with
  | Some _ => execute_crew self messages message_id
  | None =>
      execute_flow parse crewai_flow_messages_to_copilotkit self thread_id run_id
        local_queue final_state
  end.

End Crew.

Arguments crew_inputs copilotkit_message_to_crewai_crew
  {CrewClass FlowClass MergeState} _ _.
Arguments execute_crew copilotkit_message_to_crewai_crew
  {CrewClass FlowClass MergeState} kickoff _ _ _.
Arguments execute parse crewai_flow_messages_to_copilotkit
  copilotkit_message_to_crewai_crew {CrewClass FlowClass MergeState} kickoff
  _ _ _ _ _ _ _.

(** A crew-mode agent whose input key is the key of the chat messages. *)
Definition colliding_agent : CrewAIAgent unit unit unit :=
  {| name := "agent"; description := None; crew := Some tt;
     crew_input_key := "crew_chat_messages"; flow := None;
     copilotkit_config := {| merge_state := None |} |}.

(** ** Notions used to state further properties *)

(** The text and action events an internal event is translated to,
    snapshots apart. *)
Definition stream_events (e : event_data) : list RuntimeEvent :=
  match e with
  | EmitMessage message_id message =>
      [TextMessageStart message_id None; TextMessageContent message_id message;
       TextMessageEnd message_id]
  | EmitToolCall message_id name args =>
      [ActionExecutionStart message_id name None;
       ActionExecutionArgs message_id (json_dumps args);
       ActionExecutionEnd message_id]
  | TextMessageStartEvent message_id parent => [TextMessageStart message_id parent]
  | TextMessageContentEvent message_id content => [TextMessageContent message_id content]
  | TextMessageEndEvent message_id => [TextMessageEnd message_id]
  | ActionExecutionStartEvent id action_name parent =>
      [ActionExecutionStart id action_name parent]
  | ActionExecutionArgsEvent id args => [ActionExecutionArgs id (Verbatim args)]
  | ActionExecutionEndEvent id => [ActionExecutionEnd id]
  | _ => []
  end.

Definition is_stream_event (ev : RuntimeEvent) : bool :=
  match ev with AgentState _ => false | _ => true end.

(** The part of the queue a run takes: up to and including the first
    terminal event. *)
Fixpoint consumed (local_queue : list (event_data * gmap string value))
  : list (event_data * gmap string value) :=
  match local_queue with
  | [] => []
  | (e, state) :: rest =>
      if is_terminal e then [(e, state)] else (e, state) :: consumed rest
  end.

(** The events whose translation reads the flow state. *)
Definition reads_flow_state (e : event_data) : bool :=
  match e with
  | MethodExecutionStarted _ | MethodExecutionFinished
  | ActionExecutionArgsEvent _ _ => true
  | _ => false
  end.

(** A snapshot of the run [thread_id], [agent_name], [run_id] whose state
    holds no ["id"]. *)
Definition run_snapshot (thread_id agent_name run_id : string) (ev : RuntimeEvent)
  : Prop :=
  match ev with
  | AgentState m =>
      m_thread_id m = thread_id ∧ m_agent_name m = agent_name
      ∧ m_run_id m = run_id ∧ m_role m = "assistant"
      ∧ ∃ d, m_state m = json_dumps (VDict d) ∧ d !! "id" = None
  | _ => True
  end.

(** A snapshot as the event handler emits them: of the run, running, its
    node the current one, its state without ["messages"] and ["id"]. *)
Definition handler_snapshot (thread_id agent_name run_id node : string)
    (ev : RuntimeEvent) : Prop :=
  match ev with
  | AgentState m =>
      m_thread_id m = thread_id ∧ m_agent_name m = agent_name
      ∧ m_run_id m = run_id ∧ m_role m = "assistant"
      ∧ m_node_name m = node ∧ m_running m = true
      ∧ ∃ d, m_state m = json_dumps (VDict d)
             ∧ d !! "id" = None ∧ d !! "messages" = None
  | _ => True
  end.

(** The step the run is in after the events [events], when it was in
    [node] before: the last one that started. *)
Definition current_node (node : string) (events : list (event_data * gmap string value))
  : string :=
  foldl (λ n x, match x.1 with MethodExecutionStarted name => name | _ => n end)
    node events.

(** The execution state after the argument fragments [fragments] of one
    tool call have been handled in order, each with its flow state. *)
Definition feed (parse : string → option value) (thread_id agent_name run_id id : string)
    (fragments : list (string * gmap string value)) (es : CrewAIFlowExecutionState)
  : CrewAIFlowExecutionState :=
  foldl (λ es f,
           (handle_crewai_flow_event parse (ActionExecutionArgsEvent id f.1)
              thread_id agent_name f.2 run_id es).2)
    es fragments.

(** A parser for the witness of the non-dictionary case: on the text of an
    empty array it returns the empty list, as [json.loads] does, and it
    fails on every other text. *)
Definition empty_array_parser (s : string) : option value :=
  if String.eqb s "[]" then Some (VList []) else None.

(** An agent in crew mode, its classes being left abstract. *)
Definition crew_agent : CrewAIAgent unit unit unit :=
  {| name := "agent"; description := None; crew := Some tt;
     crew_input_key := "input"; flow := None;
     copilotkit_config := {| merge_state := None |} |}.

(** * Properties *)

(** ** [filter_state] *)

Lemma lookup_filter_state (state : gmap string value) exclude_keys (k : string) :
  filter_state state exclude_keys !! k =
  if decide (k ∈ effective_exclude_keys exclude_keys) then None else state !! k.
Proof.
  unfold filter_state. case_decide as Hk.
  - apply map_lookup_filter_None. right. intros x _. simpl. tauto.
  - destruct (state !! k) as [x|] eqn:E.
    + apply map_lookup_filter_Some. simpl. split; done.
    + apply map_lookup_filter_None. left. done.
Qed.

Lemma lookup_without_messages (state : gmap string value) (k : string) :
  without_messages state !! k = if decide (k = "messages") then None else state !! k.
Proof.
  unfold without_messages. case_decide as Hk.
  - apply map_lookup_filter_None. right. intros x _. simpl. tauto.
  - destruct (state !! k) as [x|] eqn:E.
    + apply map_lookup_filter_Some. simpl. split; done.
    + apply map_lookup_filter_None. left. done.
Qed.

(** An empty exclusion list is falsy in Python, so it selects the default
    keys instead of excluding nothing. *)
Lemma filter_state_empty_list (state : gmap string value) :
  filter_state state (Some []) = filter_state state None.
Proof. reflexivity. Qed.

(** Filtering the default keys after dropping ["messages"] is the same as
    deleting ["messages"] and ["id"]. *)
Lemma filter_state_without_messages (state : gmap string value) :
  filter_state (without_messages state) None = delete "id" (delete "messages" state).
Proof.
  apply map_eq. intros k.
  rewrite lookup_filter_state, lookup_without_messages. simpl.
  destruct (decide (k = "id")) as [->|Hid].
  - rewrite lookup_delete_eq. case_decide as H; [done|].
    exfalso. apply H. rewrite !elem_of_cons. tauto.
  - rewrite lookup_delete_ne by done.
    destruct (decide (k = "messages")) as [->|Hm].
    + rewrite lookup_delete_eq. by case_decide.
    + rewrite lookup_delete_ne by done. case_decide as H; [|done].
      rewrite !elem_of_cons, elem_of_nil in H. tauto.
Qed.

(** The state of a snapshot of the predictor, key by key: ["messages"]
    and ["id"] are absent, a predicted key holds the predicted value, and
    any other key holds what the flow state holds. *)
Lemma lookup_snapshot_state (state predicted : gmap string value) (k : string) :
  filter_state (merge state predicted) None !! k
  = if decide (k = "messages" ∨ k = "id") then None
    else match predicted !! k with
         | Some v => Some v
         | None => state !! k
         end.
Proof.
  rewrite lookup_filter_state. cbn [effective_exclude_keys]. unfold merge.
  rewrite lookup_union.
  destruct (decide (k = "messages" ∨ k = "id")) as [Hk|Hk].
  - rewrite decide_True; [done|]. rewrite !elem_of_cons. tauto.
  - rewrite decide_False.
    + by destruct (predicted !! k), (state !! k).
    + rewrite !elem_of_cons, elem_of_nil. tauto.
Qed.

(** With one predicted key, which is not an excluded one, the snapshot
    state is the flow state without ["messages"] and ["id"], the predicted
    key set to the predicted value. *)
Lemma snapshot_state_singleton (state : gmap string value) (k : string) (v : value) :
  k ≠ "messages" → k ≠ "id" →
  filter_state (merge state {[k := v]}) None
  = <[k := v]> (delete "id" (delete "messages" state)).
Proof.
  intros Hm Hi. apply map_eq. intros j. rewrite lookup_snapshot_state.
  destruct (decide (j = k)) as [->|Hj].
  - rewrite decide_False by tauto. by rewrite lookup_singleton_eq, lookup_insert_eq.
  - rewrite lookup_singleton_ne, lookup_insert_ne by done.
    destruct (decide (j = "messages" ∨ j = "id")) as [[->| ->]|Hn].
    + rewrite lookup_delete_ne by done. by rewrite lookup_delete_eq.
    + by rewrite lookup_delete_eq.
    + rewrite !lookup_delete_ne; [done|naive_solver|naive_solver].
Qed.

(** Excluding ["id"] alone deletes that key and keeps every other one. *)
Lemma filter_state_id (state : gmap string value) :
  filter_state state (Some ["id"]) = delete "id" state.
Proof.
  apply map_eq. intros k.
  rewrite lookup_filter_state. cbn [effective_exclude_keys].
  destruct (decide (k = "id")) as [->|Hne].
  - rewrite lookup_delete_eq. case_decide as H; [done|].
    exfalso. apply H. apply elem_of_cons. by left.
  - rewrite lookup_delete_ne by done. case_decide as H; [|done].
    rewrite elem_of_cons, elem_of_nil in H. tauto.
Qed.

(** C7. [filter_state] is idempotent for every state and every exclusion
    list, and when none of the keys it excludes occurs in the state it
    returns a dictionary equal to the state.  The keys it excludes are the
    given list, or ["messages"] and ["id"] when the list is absent or
    empty. *)
Theorem filter_state_idempotent (s : gmap string value)
    (exclude_keys : option (list string)) :
  filter_state (filter_state s exclude_keys) exclude_keys = filter_state s exclude_keys
  ∧ ((∀ k, k ∈ effective_exclude_keys exclude_keys → s !! k = None) →
     filter_state s exclude_keys = s).
Proof.
  split.
  - apply map_eq. intros k. rewrite !lookup_filter_state. by case_decide.
  - intros Habsent. apply map_eq. intros k. rewrite lookup_filter_state.
    case_decide as Hk; [|done]. symmetry. by apply Habsent.
Qed.

(** ** The argument buffer *)

Section Predictor.

Variable parse : string → option value.

Lemma predict_loop_cases call current_arguments items predicted emit_update :
  ∃ raised predicted' emit_update',
    predict_loop call current_arguments items predicted emit_update
    = (raised, predicted', emit_update').
Proof.
  destruct (predict_loop call current_arguments items predicted emit_update)
    as [[raised predicted'] emit_update'].
  eauto.
Qed.

Lemma predict_state_args_buffer thread_id agent_name run_id id args es state :
  argument_buffer
    (predict_state parse thread_id agent_name run_id (ActionExecutionArgsEvent id args) es state).2
  = argument_buffer es +:+ args.
Proof.
  unfold predict_state. cbn zeta.
  case_decide; [|done].
  destruct (parse _) as [current_arguments|]; [|done].
  destruct (predict_loop_cases
              (current_tool_call (set_argument_buffer (argument_buffer es +:+ args) es))
              current_arguments
              (predict_state_configuration
                 (set_argument_buffer (argument_buffer es +:+ args) es))
              (predicted_state (set_argument_buffer (argument_buffer es +:+ args) es))
              false)
    as (raised & predicted' & emit_update' & ->).
  destruct raised; [done|]. by destruct emit_update'.
Qed.

(** C10. On every argument-fragment event [predict_state] appends the
    fragment to [argument_buffer] whatever the current tool call and the
    configuration are and however the call ends; and the handler leaves the
    buffer untouched on every event except tool-call start and step finish,
    which empty it, and argument fragments, which extend it. *)
Theorem argument_buffer_accumulates :
  (∀ thread_id agent_name run_id id args es state,
     argument_buffer
       (predict_state parse thread_id agent_name run_id
          (ActionExecutionArgsEvent id args) es state).2
     = argument_buffer es +:+ args)
  ∧ (∀ e thread_id agent_name state run_id es,
       argument_buffer (handle_crewai_flow_event parse e thread_id agent_name state run_id es).2
       = buffer_after e (argument_buffer es)).
Proof.
  split; [apply predict_state_args_buffer|].
  intros e thread_id agent_name state run_id es.
  destruct e; try reflexivity.
  - cbn -[predict_state].
    pose proof (predict_state_args_buffer thread_id agent_name run_id
                  action_execution_id args es state) as Hb.
    destruct (predict_state parse thread_id agent_name run_id
                (ActionExecutionArgsEvent action_execution_id args) es state)
      as [[r|x] es1]; simpl in *; done.
Qed.

(** ** The state predictor *)

(** The flag the loop returns tells whether some entry wrote its key, and
    without such an entry the predicted state is left as it was. *)
Lemma predict_loop_flag call current_arguments items :
  ∀ predicted emit_update predicted' emit_update',
    predict_loop call current_arguments items predicted emit_update
    = (None, predicted', emit_update') →
    emit_update' = emit_update || existsb (entry_updates call current_arguments) items
    ∧ (existsb (entry_updates call current_arguments) items = false →
       predicted' = predicted).
Proof.
  induction items as [|[k v] rest IH]; intros predicted emit_update predicted' emit_update'.
  - simpl. intros [= <- <-]. by rewrite orb_false_r.
  - cbn [predict_loop existsb]. unfold entry_updates at 1 3. cbn [snd].
    destruct (decide (Some (tool_name v) = call)) as [Hcall|Hcall].
    + rewrite (bool_decide_eq_true_2 _ Hcall). cbn [andb].
      destruct (tool_argument v) as [a|].
      * destruct current_arguments as [| | | | | |d]; try discriminate.
        destruct (is_not_None (default VNone (d !! a))) eqn:Hv; intros Hloop.
        -- apply IH in Hloop as [-> _]. cbn [orb].
           split; [by rewrite orb_true_r|done].
        -- apply IH in Hloop as [-> Hsame]. by split.
      * intros Hloop. apply IH in Hloop as [-> _]. cbn [orb].
        split; [by rewrite orb_true_r|done].
    + rewrite (bool_decide_eq_false_2 _ Hcall). cbn [andb orb].
      intros Hloop. by apply IH in Hloop.
Qed.

(** On a dictionary [.get] is available, so the loop cannot raise. *)
Lemma predict_loop_dict call d items :
  ∀ predicted emit_update,
    (predict_loop call (VDict d) items predicted emit_update).1.1 = None.
Proof.
  induction items as [|[k v] rest IH]; intros predicted emit_update; [done|].
  cbn [predict_loop]. case_decide; [|apply IH].
  destruct (tool_argument v); [|apply IH].
  cbn zeta. destruct (is_not_None _); apply IH.
Qed.

(** Every entry that writes leaves its key in the predicted state. *)
Lemma predict_loop_writes call current_arguments items :
  ∀ predicted emit_update predicted' emit_update' k v,
    predict_loop call current_arguments items predicted emit_update
    = (None, predicted', emit_update') →
    ((k, v) ∈ items ∧ entry_updates call current_arguments (k, v) = true
     ∨ is_Some (predicted !! k)) →
    is_Some (predicted' !! k).
Proof.
  induction items as [|[k0 v0] rest IH];
    intros predicted emit_update predicted' emit_update' k v.
  - simpl. intros [= <- <-] [[Hin _]|Hk]; [|done].
    by apply elem_of_nil in Hin.
  - cbn [predict_loop]. intros Hloop Hk.
    assert (∀ x, is_Some (<[k0 := x]> predicted !! k) ∨
                 ((k, v) ∈ rest ∧ entry_updates call current_arguments (k, v) = true) ∨
                 (k, v) = (k0, v0) ∧ entry_updates call current_arguments (k0, v0) = true)
      as Hcases.
    { intros x. destruct Hk as [[Hin Hup]|Hk].
      - apply elem_of_cons in Hin as [Heq|Hin]; [|by right; left].
        right; right. by rewrite <- Heq.
      - left. destruct (decide (k0 = k)) as [->|Hne].
        + rewrite lookup_insert_eq. by eexists.
        + by rewrite lookup_insert_ne. }
    unfold entry_updates in Hcases. cbn [snd] in Hcases.
    destruct (decide (Some (tool_name v0) = call)) as [Hcall|Hcall].
    + rewrite (bool_decide_eq_true_2 _ Hcall) in Hcases. cbn [andb] in Hcases.
      destruct (tool_argument v0) as [a|] eqn:Ha.
      * destruct current_arguments as [| | | | | |d]; try discriminate.
        cbn zeta in Hloop.
        destruct (is_not_None (default VNone (d !! a))) eqn:Hv.
        -- eapply IH; [exact Hloop|].
           destruct (Hcases (default VNone (d !! a))) as [H|[H|[[= -> ->] _]]]; eauto.
           right. rewrite lookup_insert_eq. by eexists.
        -- eapply IH; [exact Hloop|].
           destruct Hk as [[Hin Hup]|Hk]; [|by right].
           apply elem_of_cons in Hin as [[= -> ->]|Hin]; [|by left].
           unfold entry_updates in Hup. cbn [snd] in Hup.
           rewrite (bool_decide_eq_true_2 _ Hcall), Ha in Hup.
           cbn [andb] in Hup. congruence.
      * eapply IH; [exact Hloop|].
        destruct (Hcases current_arguments) as [H|[H|[[= -> ->] _]]]; eauto.
        right. rewrite lookup_insert_eq. by eexists.
    + eapply IH; [exact Hloop|].
      destruct Hk as [[Hin Hup]|Hk]; [|by right].
      apply elem_of_cons in Hin as [[= -> ->]|Hin]; [|by left].
      unfold entry_updates in Hup. cbn [snd] in Hup.
      by rewrite (bool_decide_eq_false_2 _ Hcall) in Hup.
Qed.

(** The loop writes no key but those of the configuration. *)
Lemma predict_loop_other call current_arguments items k :
  ∀ predicted emit_update,
    k ∉ items.*1 →
    (predict_loop call current_arguments items predicted emit_update).1.2 !! k
    = predicted !! k.
Proof.
  induction items as [|[k0 v0] rest IH]; intros predicted emit_update Hk; [done|].
  cbn [fmap list_fmap fst] in Hk. apply not_elem_of_cons in Hk as [Hne Hk].
  cbn [predict_loop]. case_decide; [|by apply IH].
  destruct (tool_argument v0).
  - destruct current_arguments; try done. cbn zeta.
    destruct (is_not_None _); rewrite IH by done; [|done].
    by rewrite lookup_insert_ne.
  - rewrite IH by done. by rewrite lookup_insert_ne.
Qed.

(** With distinct keys, as in a dictionary, an entry that writes leaves
    its value under its key. *)
Lemma predict_loop_value call current_arguments items :
  ∀ predicted emit_update predicted' emit_update' k v,
    NoDup items.*1 →
    predict_loop call current_arguments items predicted emit_update
    = (None, predicted', emit_update') →
    (k, v) ∈ items →
    entry_updates call current_arguments (k, v) = true →
    predicted' !! k = Some (written_value current_arguments v).
Proof.
  induction items as [|[k0 v0] rest IH];
    intros predicted emit_update predicted' emit_update' k v Hnd Hloop Hin Hup.
  { by apply elem_of_nil in Hin. }
  cbn [fmap list_fmap fst] in Hnd. apply NoDup_cons in Hnd as [Hfresh Hnd].
  apply elem_of_cons in Hin as [[= -> ->]|Hin].
  - pose proof (predict_loop_other call current_arguments rest k0) as Hother.
    unfold entry_updates in Hup. cbn [snd] in Hup.
    apply andb_true_iff in Hup as [Hcall Hup]. apply bool_decide_eq_true in Hcall.
    cbn [predict_loop] in Hloop. rewrite decide_True in Hloop by done.
    unfold written_value. destruct (tool_argument v0) as [a|].
    + destruct current_arguments as [| | | | | |d]; try discriminate.
      cbn zeta in Hloop. rewrite Hup in Hloop.
      specialize (Hother (<[k0 := default VNone (d !! a)]> predicted) true Hfresh).
      rewrite Hloop in Hother. cbn in Hother. by rewrite Hother, lookup_insert_eq.
    + specialize (Hother (<[k0 := current_arguments]> predicted) true Hfresh).
      rewrite Hloop in Hother. cbn in Hother. by rewrite Hother, lookup_insert_eq.
  - cbn [predict_loop] in Hloop.
    destruct (decide (Some (tool_name v0) = call)); [|by eapply IH].
    destruct (tool_argument v0); [|by eapply IH].
    destruct current_arguments as [| | | | | |d]; try discriminate.
    cbn zeta in Hloop. destruct (is_not_None _); by eapply IH.
Qed.

(** The argument-fragment branch of [predict_state], with the execution
    state after the append written [es1]. *)
Lemma predict_state_args_unfold thread_id agent_name run_id id args es state :
  predict_state parse thread_id agent_name run_id (ActionExecutionArgsEvent id args) es state
  = let es1 := set_argument_buffer (argument_buffer es +:+ args) es in
    if decide (tracked es) then
      match parse (argument_buffer es +:+ args) with
      | None => (Returned None, es1)
      | Some current_arguments =>
          let '(raised, predicted, emit_update) :=
            predict_loop (current_tool_call es) current_arguments
              (predict_state_configuration es) (predicted_state es) false in
          match raised with
          | Some e => (Raised e, set_predicted_state predicted es1)
          | None =>
              if emit_update then
                (Returned (Some
                   (agent_state_message thread_id agent_name (node_name es) run_id
                      true "assistant"
                      (json_dumps (VDict (filter_state (merge state predicted) None)))
                      true)),
                 set_predicted_state predicted es1)
              else (Returned None, set_predicted_state predicted es1)
          end
      end
    else (Returned None, es1).
Proof. reflexivity. Qed.

(** X21. When the parser raises on the accumulated argument text,
    [predict_state] returns none without raising, for every configuration,
    execution state and flow state; its only effect is the append to the
    buffer, and the handler then emits the argument event alone. *)
Theorem predict_state_parse_failure thread_id agent_name run_id id args es state :
  parse (argument_buffer es +:+ args) = None →
  predict_state parse thread_id agent_name run_id (ActionExecutionArgsEvent id args) es state
  = (Returned None, set_argument_buffer (argument_buffer es +:+ args) es)
  ∧ handle_crewai_flow_event parse (ActionExecutionArgsEvent id args)
      thread_id agent_name state run_id es
    = (Returned (Some [ActionExecutionArgs id (Verbatim args)]),
       set_argument_buffer (argument_buffer es +:+ args) es).
Proof.
  intros Hfail.
  assert (predict_state parse thread_id agent_name run_id
            (ActionExecutionArgsEvent id args) es state
          = (Returned None, set_argument_buffer (argument_buffer es +:+ args) es)) as Hp.
  { rewrite predict_state_args_unfold. cbn zeta. rewrite Hfail. by case_decide. }
  split; [exact Hp|].
  cbn [handle_crewai_flow_event]. by rewrite Hp.
Qed.

(** C4, where the code departs from it.  Only the call of the parser is
    inside the [try]; the lookup on the parsed arguments is outside.  When
    the parser turns the accumulated text into a value that is no
    dictionary (a list, a string, a number) and the first entry for the
    current tool names an argument, [predict_state] does not return none:
    the [AttributeError] of the lookup leaves the call. *)
Lemma predict_state_non_object_raises thread_id agent_name run_id id args es state
    call current_arguments k v a rest :
  current_tool_call es = Some call →
  predict_state_configuration es = (k, v) :: rest →
  tool_name v = call →
  tool_argument v = Some a →
  parse (argument_buffer es +:+ args) = Some current_arguments →
  (∀ d, current_arguments ≠ VDict d) →
  (predict_state parse thread_id agent_name run_id
     (ActionExecutionArgsEvent id args) es state).1
  = Raised (AttributeError
              ("'" +:+ type_name current_arguments +:+ "' object has no attribute 'get'")).
Proof.
  intros Hcall Hconf Hname Harg Hparse Hnot.
  rewrite predict_state_args_unfold. cbn zeta.
  rewrite decide_True.
  2:{ unfold tracked. rewrite Hcall, Hconf. cbn. rewrite Hname. apply elem_of_cons. by left. }
  rewrite Hparse, Hconf, Hcall. cbn [predict_loop].
  rewrite decide_True by congruence. rewrite Harg.
  destruct current_arguments as [| | | | | |d]; try reflexivity.
  by destruct (Hnot d).
Qed.

(** C2, as the code has it.  Whenever [predict_state] returns from an
    argument-fragment event: if the fragment updates at least one predicted
    key, the result is a snapshot, active and running, whose state is the
    flow state overlaid with the predicted state and then filtered: the
    keys ["messages"] and ["id"] are absent, predicted ones included, every
    other predicted key holds its predicted value, and every other key
    holds the value of the flow state; if no key is updated the result is
    none and the predicted state is unchanged. *)
Theorem predict_state_snapshot thread_id agent_name run_id id args es state r es' :
  predict_state parse thread_id agent_name run_id (ActionExecutionArgsEvent id args) es state
  = (Returned r, es') →
  (if key_updated parse es args then
     ∃ d : gmap string value,
       r = Some {| m_thread_id := thread_id; m_agent_name := agent_name;
                   m_node_name := node_name es; m_run_id := run_id;
                   m_active := true; m_role := "assistant";
                   m_state := json_dumps (VDict d);
                   m_running := true |}
       ∧ ∀ k, d !! k
              = if decide (k = "messages" ∨ k = "id") then None
                else match predicted_state es' !! k with
                     | Some v => Some v
                     | None => state !! k
                     end
   else r = None)
  ∧ (key_updated parse es args = false → predicted_state es' = predicted_state es).
Proof.
  rewrite predict_state_args_unfold. unfold key_updated. cbn zeta.
  destruct (decide (tracked es)) as [Ht|Ht].
  - rewrite (bool_decide_eq_true_2 _ Ht). cbn [andb].
    destruct (parse (argument_buffer es +:+ args)) as [current_arguments|].
    + destruct (predict_loop (current_tool_call es) current_arguments
                  (predict_state_configuration es) (predicted_state es) false)
        as [[raised predicted] emit_update] eqn:Hloop.
      destruct raised as [e|]; [discriminate|].
      apply predict_loop_flag in Hloop as [-> Hsame]. cbn [orb] in *.
      destruct (existsb _ _); intros [= <- <-]; (split; [|done]).
      * eexists. split; [reflexivity|]. intros k. apply lookup_snapshot_state.
      * done.
    + by intros [= <- <-].
  - rewrite (bool_decide_eq_false_2 _ Ht). by intros [= <- <-].
Qed.

(** X18. What an update writes: when the configuration has distinct keys,
    every entry for the current tool call that finds its argument leaves
    that value under its key in the predicted state. *)
Lemma predict_state_writes thread_id agent_name run_id id args es state r es'
    current_arguments k v :
  NoDup (predict_state_configuration es).*1 →
  predict_state parse thread_id agent_name run_id (ActionExecutionArgsEvent id args) es state
  = (Returned r, es') →
  tracked es →
  parse (argument_buffer es +:+ args) = Some current_arguments →
  (k, v) ∈ predict_state_configuration es →
  entry_updates (current_tool_call es) current_arguments (k, v) = true →
  predicted_state es' !! k = Some (written_value current_arguments v).
Proof.
  intros Hnd Hrun Ht Hparse Hin Hup.
  rewrite predict_state_args_unfold in Hrun. cbn zeta in Hrun.
  rewrite decide_True, Hparse in Hrun by done.
  destruct (predict_loop (current_tool_call es) current_arguments
              (predict_state_configuration es) (predicted_state es) false)
    as [[raised predicted] emit_update] eqn:Hloop.
  destruct raised as [e|]; [discriminate|].
  assert (predicted_state es' = predicted) as ->.
  { destruct emit_update; by injection Hrun as _ <-. }
  by eapply predict_loop_value.
Qed.

(** A fragment after which the parser returns an object whose [text] is a
    string makes the configuration of the scenario predict that string: the
    call returns a snapshot and [summary] is set in the predicted state. *)
Lemma predict_state_summary thread_id agent_name run_id id args es state d text :
  predict_state_configuration es = summary_configuration →
  current_tool_call es = Some "save" →
  parse (argument_buffer es +:+ args) = Some (VDict d) →
  d !! "text" = Some (VStr text) →
  predict_state parse thread_id agent_name run_id (ActionExecutionArgsEvent id args) es state
  = (Returned (Some
       {| m_thread_id := thread_id; m_agent_name := agent_name;
          m_node_name := node_name es; m_run_id := run_id;
          m_active := true; m_role := "assistant";
          m_state :=
            json_dumps
              (VDict (filter_state
                        (merge state (<["summary" := VStr text]> (predicted_state es)))
                        None));
          m_running := true |}),
     set_predicted_state (<["summary" := VStr text]> (predicted_state es))
       (set_argument_buffer (argument_buffer es +:+ args) es)).
Proof.
  intros Hconf Hcall Hparse Htext.
  rewrite predict_state_args_unfold. cbn zeta.
  rewrite decide_True.
  2:{ unfold tracked. rewrite Hconf, Hcall. cbn. apply elem_of_cons. by left. }
  rewrite Hparse, Hconf, Hcall.
  cbn [predict_loop summary_configuration tool_name tool_argument].
  rewrite decide_True by done. cbn zeta.
  rewrite Htext. reflexivity.
Qed.

(** C1, as the code has it.  With the configuration mapping [summary] to
    the argument [text] of the tool [save], a tool call [save] starts and
    the three fragments arrive in order.  The parser gives nothing to
    extract for [text] on the first accumulated text, an object whose
    [text] is the cut-off string [hel] on the second, and the object whose
    [text] is [hello] on the third.  Then the call for the first fragment
    returns none, and the calls for the second and for the third fragment
    each return a snapshot, predicting [summary] as [hel] and then as
    [hello]; the snapshot state is the flow state without ["messages"] and
    ["id"], with [summary] set to the predicted text. *)
Theorem predict_state_streaming thread_id agent_name run_id state es d2 d3 :
  predict_state_configuration es = summary_configuration →
  predicted_state es = ∅ →
  lacks_argument "text" (parse fragment_1) →
  parse (fragment_1 +:+ fragment_2) = Some (VDict d2) →
  d2 !! "text" = Some (VStr "hel") →
  parse ((fragment_1 +:+ fragment_2) +:+ fragment_3) = Some (VDict d3) →
  d3 !! "text" = Some (VStr "hello") →
  let step e s := predict_state parse thread_id agent_name run_id e s state in
  let snapshot text :=
    {| m_thread_id := thread_id; m_agent_name := agent_name;
       m_node_name := node_name es; m_run_id := run_id;
       m_active := true; m_role := "assistant";
       m_state :=
         json_dumps
           (VDict (<["summary" := VStr text]> (delete "id" (delete "messages" state))));
       m_running := true |} in
  let r0 := step (ActionExecutionStartEvent "call-1" "save" None) es in
  let r1 := step (ActionExecutionArgsEvent "call-1" fragment_1) r0.2 in
  let r2 := step (ActionExecutionArgsEvent "call-1" fragment_2) r1.2 in
  let r3 := step (ActionExecutionArgsEvent "call-1" fragment_3) r2.2 in
  r0.1 = Returned None
  ∧ r1.1 = Returned None
  ∧ r2.1 = Returned (Some (snapshot "hel"))
  ∧ predicted_state r2.2 = {["summary" := VStr "hel"]}
  ∧ r3.1 = Returned (Some (snapshot "hello"))
  ∧ predicted_state r3.2 = {["summary" := VStr "hello"]}.
Proof.
  intros Hconf Hpred H1 H2 Ht2 H3 Ht3 step snapshot r0 r1 r2 r3.
  assert (r0 = (Returned None,
                set_argument_buffer "" (set_current_tool_call (Some "save") es))) as E0
    by reflexivity.
  assert (r1 = (Returned None, set_argument_buffer fragment_1 r0.2)) as E1.
  { unfold r1, step. rewrite predict_state_args_unfold. cbn zeta.
    rewrite decide_True.
    2:{ unfold tracked. rewrite E0. cbn. rewrite Hconf. cbn. apply elem_of_cons. by left. }
    rewrite E0.
    cbn [snd argument_buffer set_argument_buffer set_current_tool_call current_tool_call
         predict_state_configuration predicted_state].
    change ("" +:+ fragment_1) with fragment_1.
    destruct H1 as [->|(d & -> & Hd)]; [done|].
    rewrite Hconf. cbn [predict_loop summary_configuration tool_name tool_argument].
    rewrite decide_True by done. cbn zeta. rewrite Hd. cbn.
    by destruct es. }
  assert (r2 = (Returned (Some (snapshot "hel")),
                set_predicted_state {["summary" := VStr "hel"]}
                  (set_argument_buffer (fragment_1 +:+ fragment_2) r1.2))) as E2.
  { unfold r2, step.
    rewrite (predict_state_summary thread_id agent_name run_id "call-1" fragment_2
               r1.2 state d2 "hel"); rewrite ?E1, ?E0; cbn; try done.
    rewrite Hpred, insert_empty, snapshot_state_singleton by done.
    by destruct es. }
  assert (r3 = (Returned (Some (snapshot "hello")),
                set_predicted_state {["summary" := VStr "hello"]}
                  (set_argument_buffer ((fragment_1 +:+ fragment_2) +:+ fragment_3)
                     r2.2))) as E3.
  { unfold r3, step.
    rewrite (predict_state_summary thread_id agent_name run_id "call-1" fragment_3
               r2.2 state d3 "hello"); rewrite ?E2, ?E1, ?E0; cbn; try done.
    rewrite insert_singleton_eq, snapshot_state_singleton by done.
    by destruct es. }
  rewrite E0, E1, E2, E3. done.
Qed.

End Predictor.

(** ** The event mapper *)

Section Mapper.

Variable parse : string → option value.

(** [predict_state] touches only the predictor's bookkeeping. *)
Lemma predict_state_frame thread_id agent_name run_id e es state :
  let es' := (predict_state parse thread_id agent_name run_id e es state).2 in
  is_finished es' = is_finished es ∧ should_exit es' = should_exit es
  ∧ node_name es' = node_name es
  ∧ predict_state_configuration es' = predict_state_configuration es.
Proof.
  destruct e; try (cbn; done).
  rewrite predict_state_args_unfold. cbn zeta.
  case_decide; [|done].
  destruct (parse _) as [current_arguments|]; [|done].
  destruct (predict_loop _ _ _ _ _) as [[raised predicted] emit_update].
  destruct raised; [done|]. by destruct emit_update.
Qed.

(** The only exception [predict_state] can raise is the [AttributeError]
    of the lookup on parsed arguments. *)
Lemma predict_loop_raises call current_arguments items :
  ∀ predicted emit_update e,
    (predict_loop call current_arguments items predicted emit_update).1.1 = Some e →
    ∃ msg, e = AttributeError msg.
Proof.
  induction items as [|[k v] rest IH]; intros predicted emit_update e; [done|].
  cbn [predict_loop]. case_decide; [|apply IH].
  destruct (tool_argument v); [|apply IH].
  destruct current_arguments; try (cbn; intros [= <-]; eauto).
  cbn zeta. destruct (is_not_None _); apply IH.
Qed.

Lemma predict_state_raises thread_id agent_name run_id e es state x :
  (predict_state parse thread_id agent_name run_id e es state).1 = Raised x →
  ∃ msg, x = AttributeError msg.
Proof.
  destruct e; try (cbn; discriminate).
  rewrite predict_state_args_unfold. cbn zeta.
  case_decide; [|discriminate].
  destruct (parse _) as [current_arguments|]; [|discriminate].
  destruct (predict_loop _ _ _ _ _) as [[raised predicted] emit_update] eqn:Hloop.
  destruct raised as [e|].
  - cbn. intros [= <-].
    eapply (predict_loop_raises _ _ _ _ _ e). by rewrite Hloop.
  - by destruct emit_update.
Qed.

(** C3, as the code has it.  On a method-started event the handler sets
    [node_name] to the event's name and emits exactly one agent-state
    snapshot, active and running, whose state is the current flow state
    with the keys ["messages"] and ["id"] removed. *)
Theorem method_started_snapshot name thread_id agent_name state run_id es :
  handle_crewai_flow_event parse (MethodExecutionStarted name)
    thread_id agent_name state run_id es
  = (Returned (Some
       [AgentState
          {| m_thread_id := thread_id; m_agent_name := agent_name;
             m_node_name := name; m_run_id := run_id;
             m_active := true; m_role := "assistant";
             m_state := json_dumps (VDict (delete "id" (delete "messages" state)));
             m_running := true |}]),
     set_node_name name es).
Proof.
  cbn [handle_crewai_flow_event]. cbn zeta.
  by rewrite filter_state_without_messages.
Qed.

(** [is_finished] after an event. *)
Lemma handle_is_finished e thread_id agent_name state run_id es :
  is_finished (handle_crewai_flow_event parse e thread_id agent_name state run_id es).2
  = is_finished es || is_terminal e.
Proof.
  destruct e; cbn -[predict_state]; rewrite ?orb_false_r, ?orb_true_r; try done.
  pose proof (predict_state_frame thread_id agent_name run_id
                (ActionExecutionArgsEvent action_execution_id args) es state) as [H _].
  destruct (predict_state _ _ _ _ _ _ _) as [[r|x] es1]; exact H.
Qed.

(** C5. [is_finished] never goes back to false: after any event it is true
    exactly when it was true before or the event is flow-finished or
    flow-error, whether the handler returns or raises. *)
Theorem is_finished_monotonic e thread_id agent_name state run_id es :
  let es' := (handle_crewai_flow_event parse e thread_id agent_name state run_id es).2 in
  is_finished es' = is_finished es || is_terminal e
  ∧ (is_finished es = true → is_finished es' = true).
Proof.
  cbn zeta.
  assert (is_finished
            (handle_crewai_flow_event parse e thread_id agent_name state run_id es).2
          = is_finished es || is_terminal e) as Heq.
  { destruct e; cbn -[predict_state]; rewrite ?orb_false_r, ?orb_true_r; try done.
    - pose proof (predict_state_frame thread_id agent_name run_id
                    (ActionExecutionArgsEvent action_execution_id args) es state) as [H _].
      destruct (predict_state _ _ _ _ _ _ _) as [[r|x] es1]; exact H. }
  split; [exact Heq|].
  intros Hfin. by rewrite Heq, Hfin.
Qed.

(** C9. An event whose type is none of the kinds of the mapping table makes
    the handler raise the unknown-event error at once: nothing is returned
    and the execution state is left as it was. *)
Theorem unknown_event_raises e thread_id agent_name state run_id es :
  event_type e = None →
  ∃ type,
    e = UnknownEvent type
    ∧ handle_crewai_flow_event parse e thread_id agent_name state run_id es
      = (Raised (ValueError ("Unknown event type: " +:+ type)), es).
Proof.
  destruct e; try discriminate. intros _. by eexists.
Qed.

(** Conversely, an event of a known kind never raises a [ValueError]. *)
Lemma known_event_no_value_error e t thread_id agent_name state run_id es msg :
  event_type e = Some t →
  (handle_crewai_flow_event parse e thread_id agent_name state run_id es).1
  ≠ Raised (ValueError msg).
Proof.
  destruct e; try discriminate; intros _; try (cbn; discriminate).
  cbn -[predict_state].
  pose proof (predict_state_raises thread_id agent_name run_id
                (ActionExecutionArgsEvent action_execution_id args) es state) as Hr.
  destruct (predict_state _ _ _ _ _ _ _) as [[r|x] es1]; [discriminate|].
  cbn in *. destruct (Hr x eq_refl) as [m ->]. discriminate.
Qed.

(** The handler changes [should_exit] only on an exit event. *)
Lemma handle_should_exit e thread_id agent_name state run_id es :
  should_exit (handle_crewai_flow_event parse e thread_id agent_name state run_id es).2
  = should_exit es || is_exit e.
Proof.
  destruct e; cbn -[predict_state]; rewrite ?orb_false_r, ?orb_true_r; try done.
  pose proof (predict_state_frame thread_id agent_name run_id
                (ActionExecutionArgsEvent action_execution_id args) es state)
    as (_ & H & _).
  destruct (predict_state _ _ _ _ _ _ _) as [[r|x] es1]; exact H.
Qed.

End Mapper.

(** ** The run driver *)

Section Driver.

Variable parse : string → option value.
Variable crewai_flow_messages_to_copilotkit : value → value.
Variables CrewClass FlowClass MergeState : Type.
Variable Agent_init : string → option string → outcome unit.

(** A relay loop that completes has consumed the queue up to and including
    its first terminal event, and nothing after it; [should_exit] then tells
    whether an exit event was among the events consumed. *)
Lemma relay_done thread_id agent_name run_id local_queue :
  ∀ es yielded es',
    is_finished es = false →
    relay parse thread_id agent_name run_id local_queue es = (yielded, Done, es') →
    ∃ before e state rest,
      local_queue = before ++ (e, state) :: rest
      ∧ is_terminal e = true
      ∧ Forall (λ x, is_terminal x.1 = false) before
      ∧ is_finished es' = true
      ∧ should_exit es' = should_exit es || existsb (λ x, is_exit x.1) before.
Proof.
  induction local_queue as [|[e state] rest IH]; intros es yielded es' Hfin; [done|].
  cbn [relay].
  pose proof (handle_is_finished parse e thread_id agent_name state run_id es) as Hf.
  pose proof (handle_should_exit parse e thread_id agent_name state run_id es) as Hx.
  destruct (handle_crewai_flow_event parse e thread_id agent_name state run_id es)
    as [[json_lines|x] es1]; [|discriminate].
  cbn [snd] in Hf, Hx. rewrite Hfin in Hf. cbn [orb] in Hf.
  destruct (is_finished es1) eqn:Hfin1.
  - intros [= <- <-]. exists [], e, state, rest.
    split; [done|]. split; [done|]. split; [constructor|]. split; [done|].
    cbn. rewrite orb_false_r. rewrite Hx.
    destruct e; try discriminate; cbn; by rewrite orb_false_r.
  - destruct (relay parse thread_id agent_name run_id rest es1)
      as [[more stop] es2] eqn:Hrest.
    intros [= <- -> <-].
    destruct (IH es1 more es2 Hfin1 Hrest)
      as (before & e' & state' & rest' & -> & Hterm & Hbefore & Hfin' & Hexit).
    exists ((e, state) :: before), e', state', rest'.
    split; [done|]. split; [done|]. split; [by constructor|]. split; [done|].
    rewrite Hexit, Hx. cbn. by rewrite orb_assoc.
Qed.

(** An exception that leaves the relay loop is the unknown-event error or
    the [AttributeError] of the predictor. *)
Lemma relay_failed thread_id agent_name run_id local_queue :
  ∀ es yielded x es',
    relay parse thread_id agent_name run_id local_queue es = (yielded, Failed x, es') →
    (∃ type, x = ValueError ("Unknown event type: " +:+ type))
    ∨ (∃ msg, x = AttributeError msg).
Proof.
  induction local_queue as [|[e state] rest IH]; intros es yielded x es'; [done|].
  cbn [relay].
  destruct (handle_crewai_flow_event parse e thread_id agent_name state run_id es)
    as [[json_lines|x0] es1] eqn:Hh.
  - destruct (is_finished es1); [discriminate|].
    destruct (relay parse thread_id agent_name run_id rest es1)
      as [[more stop] es2] eqn:Hrest.
    intros [= <- -> <-]. by eapply IH.
  - intros [= <- <- <-].
    destruct (event_type e) as [t|] eqn:Ht.
    + destruct x0 as [msg|msg]; [|right; by eexists].
      exfalso.
      eapply (known_event_no_value_error parse e t thread_id agent_name state run_id es);
        [done|]. by rewrite Hh.
    + destruct e; try discriminate. cbn in Hh. injection Hh as <- _.
      left. by eexists.
Qed.

(** A relay loop that stands waiting has handled the whole queue, which
    holds no terminal event, and is not finished; [should_exit] tells
    whether an exit event was handled. *)
Lemma relay_waiting thread_id agent_name run_id local_queue :
  ∀ es yielded es',
    is_finished es = false →
    relay parse thread_id agent_name run_id local_queue es = (yielded, Waiting, es') →
    is_finished es' = false
    ∧ Forall (λ x, is_terminal x.1 = false) local_queue
    ∧ should_exit es' = should_exit es || existsb (λ x, is_exit x.1) local_queue.
Proof.
  induction local_queue as [|[e state] rest IH]; intros es yielded es' Hfin.
  { cbn. intros [= _ <-]. by rewrite orb_false_r. }
  cbn [relay].
  pose proof (handle_is_finished parse e thread_id agent_name state run_id es) as Hf.
  pose proof (handle_should_exit parse e thread_id agent_name state run_id es) as Hx.
  destruct (handle_crewai_flow_event parse e thread_id agent_name state run_id es)
    as [[json_lines|x] es1]; [|discriminate].
  cbn [snd] in Hf, Hx. rewrite Hfin in Hf. cbn [orb] in Hf.
  destruct (is_finished es1) eqn:Hfin1; [discriminate|].
  destruct (relay parse thread_id agent_name run_id rest es1)
    as [[more stop] es2] eqn:Hrest.
  intros [= _ -> <-].
  destruct (IH es1 more es2 Hfin1 Hrest) as (Hfin2 & Hrest_terminal & Hexit).
  split; [done|]. split; [by constructor|].
  rewrite Hexit, Hx. cbn. by rewrite orb_assoc.
Qed.

(** The loop ends at the terminal event: when it stands waiting at the end
    of a queue and a terminal event is queued next, it completes there,
    having yielded nothing more, whatever is queued after that event. *)
Lemma relay_terminal thread_id agent_name run_id before e state rest :
  ∀ es yielded es',
    is_finished es = false →
    relay parse thread_id agent_name run_id before es = (yielded, Waiting, es') →
    is_terminal e = true →
    relay parse thread_id agent_name run_id (before ++ (e, state) :: rest) es
    = (yielded, Done, set_is_finished true es').
Proof.
  induction before as [|[e0 state0] before IH]; intros es yielded es' Hfin.
  { cbn [relay app]. intros [= <- <-] Hterm.
    destruct e; try discriminate; cbn; reflexivity. }
  cbn [relay app].
  pose proof (handle_is_finished parse e0 thread_id agent_name state0 run_id es) as Hf.
  destruct (handle_crewai_flow_event parse e0 thread_id agent_name state0 run_id es)
    as [[json_lines|x] es1]; [|discriminate].
  destruct (is_finished es1) eqn:Hfin1; [discriminate|].
  destruct (relay parse thread_id agent_name run_id before es1)
    as [[more stop] es2] eqn:Hrest.
  intros [= <- -> <-] Hterm.
  rewrite (IH es1 more es2 Hfin1 Hrest Hterm). by rewrite app_nil_r || done.
Qed.

(** A queue of events of known kinds, none of them terminal, is handled to
    its end without an exception when the parser returns only
    dictionaries, or when no argument fragment is queued. *)
Lemma relay_waits thread_id agent_name run_id local_queue :
  (∀ text v, parse text = Some v → ∃ d, v = VDict d)
  ∨ Forall (λ x : event_data * gmap string value,
              ∀ id args, x.1 ≠ ActionExecutionArgsEvent id args) local_queue →
  Forall (λ x : event_data * gmap string value,
            is_terminal x.1 = false ∧ is_Some (event_type x.1)) local_queue →
  ∀ es, is_finished es = false →
        ∃ yielded es',
          relay parse thread_id agent_name run_id local_queue es
          = (yielded, Waiting, es').
Proof.
  intros Hsafe Hknown.
  induction local_queue as [|[e state] rest IH]; intros es Hfin.
  { by eexists _, _. }
  apply Forall_cons in Hknown as [[Hterm Hkind] Hknown]. cbn [fst] in Hterm, Hkind.
  assert ((∀ text v, parse text = Some v → ∃ d, v = VDict d)
          ∨ Forall (λ x : event_data * gmap string value,
                      ∀ id args, x.1 ≠ ActionExecutionArgsEvent id args) rest) as Hrest.
  { destruct Hsafe as [Hobj|Hno]; [by left|right].
    by apply Forall_cons in Hno as [_ Hno]. }
  cbn [relay].
  pose proof (handle_is_finished parse e thread_id agent_name state run_id es) as Hf.
  assert (∃ out es1,
            handle_crewai_flow_event parse e thread_id agent_name state run_id es
            = (Returned out, es1)) as (out & es1 & Hh).
  { destruct e; try (by eexists _, _); [|by destruct Hkind].
    cbn [handle_crewai_flow_event]. rewrite predict_state_args_unfold. cbn zeta.
    case_decide; [|by eexists _, _].
    destruct (parse (argument_buffer es +:+ args)) as [v|] eqn:Hparse; [|by eexists _, _].
    destruct Hsafe as [Hobj|Hno].
    - destruct (Hobj _ _ Hparse) as [d ->].
      pose proof (predict_loop_dict (current_tool_call es) d
                    (predict_state_configuration es) (predicted_state es) false) as Hd.
      destruct (predict_loop _ _ _ _ _) as [[raised predicted] emit_update].
      cbn in Hd. subst raised. destruct emit_update; by eexists _, _.
    - apply Forall_cons in Hno as [Hno _]. by destruct (Hno action_execution_id args). }
  rewrite Hh in Hf |- *. cbn [snd] in Hf. rewrite Hfin, Hterm in Hf. cbn in Hf.
  rewrite Hf.
  destruct (IH Hrest Hknown es1 Hf) as (more & es2 & ->).
  by eexists _, _.
Qed.

(** C6. [execute_flow] completes at the terminal event and then yields its
    final snapshot.  When the events queued before the first terminal event
    are handled without an exception (the loop stands waiting at their
    end), the run completes whatever is queued after the terminal event,
    and after the batches of those events it yields exactly one more
    batch, holding one agent-state snapshot: built from the final flow
    state with its ["messages"] entry, when present, transformed and kept
    and its ["id"] entry removed, inactive, and running exactly when no
    exit event was handled before the terminal event. *)
Theorem execute_flow_final_snapshot (self : CrewAIAgent CrewClass FlowClass MergeState)
    thread_id run_id before e state rest final_state yielded es :
  is_Some (flow self) →
  relay parse thread_id (name self) run_id before initial_execution_state
  = (yielded, Waiting, es) →
  is_terminal e = true →
  execute_flow parse crewai_flow_messages_to_copilotkit self (Some thread_id) run_id
    (before ++ (e, state) :: rest) final_state
  = (yielded ++
       [[AgentState
           {| m_thread_id := thread_id; m_agent_name := name self;
              m_node_name := node_name es; m_run_id := run_id;
              m_active := false; m_role := "assistant";
              m_state :=
                json_dumps
                  (VDict (delete "id"
                            (alter crewai_flow_messages_to_copilotkit "messages"
                               final_state)));
              m_running := negb (existsb (λ x, is_exit x.1) before) |}]],
     Done).
Proof.
  intros [f Hflow] Hrelay Hterm.
  destruct (relay_waiting thread_id (name self) run_id before initial_execution_state
              yielded es eq_refl Hrelay) as (_ & _ & Hexit).
  unfold execute_flow. rewrite Hflow.
  rewrite (relay_terminal thread_id (name self) run_id before e state rest
             initial_execution_state yielded es eq_refl Hrelay Hterm).
  unfold final_state_message, agent_state_message, emit_runtime_events. cbn zeta.
  rewrite filter_state_id. cbn [should_exit node_name set_is_finished].
  by rewrite Hexit.
Qed.

(** A run yields no final snapshot when it does not complete. *)
Lemma execute_flow_done (self : CrewAIAgent CrewClass FlowClass MergeState)
    thread_id run_id local_queue final_state batches :
  execute_flow parse crewai_flow_messages_to_copilotkit self thread_id run_id
    local_queue final_state = (batches, Done) →
  ∃ t yielded es,
    thread_id = Some t
    ∧ relay parse t (name self) run_id local_queue initial_execution_state
      = (yielded, Done, es).
Proof.
  unfold execute_flow. destruct (flow self); [|discriminate].
  destruct thread_id as [t|]; [|discriminate].
  destruct (relay parse t (name self) run_id local_queue initial_execution_state)
    as [[yielded stop] es] eqn:Hrelay.
  destruct stop; try discriminate. intros _. by exists t, yielded, es.
Qed.

(** C8, as the code has it.  The inherited constructor runs first and its
    exception, if it raises one, leaves the constructor whatever the modes
    are.  When it accepts the name and the description, the constructor
    raises exactly when neither or both of [crew] and [flow] are given, and
    the exception is then its configuration error.  An agent in flow mode
    makes [execute_flow] raise the configuration error
    [Thread ID is required] exactly when [thread_id] is none, in which case
    nothing is yielded. *)
Theorem configuration_errors :
  (∀ name0 description0 (crew0 : option CrewClass) crew_input_key0
     (flow0 : option FlowClass) (config : option (CopilotKitConfig MergeState)),
     (∀ e, Agent_init name0 description0 = Raised e →
           CrewAIAgent_init Agent_init name0 description0 crew0 crew_input_key0 flow0
             config = Raised e)
     ∧ (∀ u, Agent_init name0 description0 = Returned u →
             ((∃ e, CrewAIAgent_init Agent_init name0 description0 crew0
                      crew_input_key0 flow0 config = Raised e)
              ↔ (crew0 = None ∧ flow0 = None) ∨ (is_Some crew0 ∧ is_Some flow0))
             ∧ (∀ e, CrewAIAgent_init Agent_init name0 description0 crew0
                       crew_input_key0 flow0 config = Raised e →
                     e = ValueError
                           "Either crew or flow must be provided to CrewAIAgent")))
  ∧ (∀ (self : CrewAIAgent CrewClass FlowClass MergeState) thread_id run_id
       local_queue final_state,
       is_Some (flow self) →
       ((∃ batches,
           execute_flow parse crewai_flow_messages_to_copilotkit self thread_id run_id
             local_queue final_state
           = (batches, Failed (ValueError "Thread ID is required")))
        ↔ thread_id = None)
       ∧ (thread_id = None →
          execute_flow parse crewai_flow_messages_to_copilotkit self thread_id run_id
            local_queue final_state
          = ([], Failed (ValueError "Thread ID is required")))).
Proof.
  split.
  - intros name0 description0 crew0 crew_input_key0 flow0 config.
    unfold CrewAIAgent_init. split.
    + by intros e ->.
    + intros u ->.
      destruct crew0 as [c|], flow0 as [f|]; cbn; (split; [split|]).
      * intros _. right. split; by eexists.
      * intros _. by eexists.
      * by intros e [= <-].
      * intros [e He]. discriminate.
      * intros [[? ?]|[_ [? ?]]]; discriminate.
      * intros e He. discriminate.
      * intros [e He]. discriminate.
      * intros [[? ?]|[[? ?] _]]; discriminate.
      * intros e He. discriminate.
      * intros _. by left.
      * intros _. by eexists.
      * by intros e [= <-].
  - intros self thread_id run_id local_queue final_state [f Hflow]. split; [split|].
    + intros [batches Hrun]. unfold execute_flow in Hrun. rewrite Hflow in Hrun.
      destruct thread_id as [t|]; [|done]. exfalso.
      destruct (relay parse t (name self) run_id local_queue initial_execution_state)
        as [[yielded stop] es] eqn:Hrelay.
      destruct stop as [|x|]; try discriminate.
      injection Hrun as _ ->.
      apply relay_failed in Hrelay as [[type [=]]|[msg [=]]].
    + intros ->. exists []. unfold execute_flow. by rewrite Hflow.
    + intros ->. unfold execute_flow. by rewrite Hflow.
Qed.

End Driver.

(** ** The properties on concrete runs *)

(** What the tolerant parser returns on the three accumulated texts: the
    key that is cut off has no value yet, the string that is cut off is
    kept as far as it is read. *)
Lemma partial_json_parse_fragments :
  partial_json_parse fragment_1 = Some (VDict {["te" := VNone]})
  ∧ partial_json_parse (fragment_1 +:+ fragment_2)
    = Some (VDict {["text" := VStr "hel"]})
  ∧ partial_json_parse ((fragment_1 +:+ fragment_2) +:+ fragment_3)
    = Some (VDict {["text" := VStr "hello"]}).
Proof. repeat split; vm_compute; reflexivity. Qed.

(** C1: the scenario run with the tolerant parser and no flow state.  The
    call for the first fragment returns none, but the call for the second
    fragment does not: it returns a snapshot, whose state is [summary] set
    to the cut-off text [hel]. *)
Lemma second_fragment_returns_snapshot :
  predict_state partial_json_parse "thread" "agent" "run"
    (ActionExecutionStartEvent "call-1" "save" None) configured_state ∅
  = (Returned None, tracking_state)
  ∧ predict_state partial_json_parse "thread" "agent" "run"
      (ActionExecutionArgsEvent "call-1" fragment_1) tracking_state ∅
    = (Returned None, set_argument_buffer fragment_1 tracking_state)
  ∧ predict_state partial_json_parse "thread" "agent" "run"
      (ActionExecutionArgsEvent "call-1" fragment_2)
      (set_argument_buffer fragment_1 tracking_state) ∅
    = (Returned (Some
         {| m_thread_id := "thread"; m_agent_name := "agent";
            m_node_name := "start"; m_run_id := "run";
            m_active := true; m_role := "assistant";
            m_state := json_dumps (VDict {["summary" := VStr "hel"]});
            m_running := true |}),
       set_predicted_state {["summary" := VStr "hel"]}
         (set_argument_buffer (fragment_1 +:+ fragment_2) tracking_state)).
Proof. repeat split; vm_compute; reflexivity. Qed.

(** C2: a run in which the predicted key is named ["messages"].  The key is
    written to the predicted state, yet the snapshot does not hold it. *)
Lemma predict_state_filters_predicted_keys :
  ∃ m es',
    predict_state partial_json_parse "thread" "agent" "run"
      (ActionExecutionArgsEvent "call-1" hi_arguments)
      (set_predict_state_configuration messages_configuration tracking_state) ∅
    = (Returned (Some m), es')
    ∧ predicted_state es' = {["messages" := VStr "hi"]}
    ∧ m_state m = json_dumps (VDict ∅)
    ∧ m_state m ≠ json_dumps (VDict (claimed_snapshot_state ∅ (predicted_state es'))).
Proof.
  eexists _, _. split; [vm_compute; reflexivity|].
  split; [vm_compute; reflexivity|].
  split; [vm_compute; reflexivity|].
  intros H.
  apply (f_equal (λ t, match t with
                       | json_dumps (VDict d) => d !! "messages"
                       | _ => None
                       end)) in H.
  vm_compute in H. discriminate.
Qed.

(** C3: a flow state that holds an ["id"].  The snapshot of the
    method-started event has lost it. *)
Lemma method_started_drops_id :
  ∃ m es',
    handle_crewai_flow_event partial_json_parse (MethodExecutionStarted "a")
      "thread" "agent" {["id" := VStr "7"]} "run" initial_execution_state
    = (Returned (Some [AgentState m]), es')
    ∧ m_state m = json_dumps (VDict ∅)
    ∧ m_state m
      ≠ json_dumps (VDict (claimed_method_started_state {["id" := VStr "7"]})).
Proof.
  eexists _, _. split; [vm_compute; reflexivity|].
  split; [vm_compute; reflexivity|].
  intros H.
  apply (f_equal (λ t, match t with
                       | json_dumps (VDict d) => d !! "id"
                       | _ => None
                       end)) in H.
  vm_compute in H. discriminate.
Qed.

(** C8: an agent given a flow and no crew, under a name the inherited
    constructor rejects.  Exactly one mode is provided, and the constructor
    raises. *)
Lemma constructor_raises_with_one_mode :
  (∃ e, CrewAIAgent_init checked_agent_init "bad name" None (@None unit) None (Some tt)
          (@None (CopilotKitConfig unit)) = Raised e)
  ∧ ¬ ((@None unit = None ∧ Some tt = @None unit)
       ∨ (is_Some (@None unit) ∧ is_Some (Some tt))).
Proof.
  split; [by eexists|].
  intros [[_ [=]]|[[c [=]] _]].
Qed.

(** An exception of the handler leaves [execute_flow] also when a thread
    identifier is given: here the error of an event of unknown kind. *)
Lemma execute_flow_propagates_unknown_event :
  CrewAIAgent_init checked_agent_init "agent" None (@None unit) None (Some tt)
    (@None (CopilotKitConfig unit))
  = Returned flow_agent
  ∧ execute_flow partial_json_parse (λ v, v) flow_agent (Some "thread") "run"
      [(UnknownEvent "custom", ∅)] ∅
    = ([], Failed (ValueError "Unknown event type: custom")).
Proof. split; reflexivity. Qed.

(** ** The properties at concrete inputs *)

(** C7 on a state without the excluded keys. *)
Lemma filter_state_idempotent_witness :
  filter_state {["x" := VNum 1]} None = {["x" := VNum 1]}.
Proof.
  apply (proj2 (filter_state_idempotent {["x" := VNum 1]} None)).
  intros k Hk. cbn in Hk. rewrite !elem_of_cons, elem_of_nil in Hk.
  apply lookup_singleton_ne. intros <-. destruct Hk as [|[|]]; done.
Defined.

(** C1 on the tolerant parser, the flow state holding an identifier and a
    draft: the calls for the second and the third fragment return the
    snapshots with [summary] set to [hel] and to [hello]. *)
Lemma predict_state_streaming_witness :
  lacks_argument "text" (partial_json_parse fragment_1)
  ∧ partial_json_parse (fragment_1 +:+ fragment_2)
    = Some (VDict {["text" := VStr "hel"]})
  ∧ partial_json_parse ((fragment_1 +:+ fragment_2) +:+ fragment_3)
    = Some (VDict {["text" := VStr "hello"]})
  ∧ (predict_state partial_json_parse "thread" "agent" "run"
       (ActionExecutionArgsEvent "call-1" fragment_2)
       (set_argument_buffer fragment_1 tracking_state)
       {["id" := VStr "7"; "draft" := VNum 1]}).1
    = Returned (Some
        {| m_thread_id := "thread"; m_agent_name := "agent";
           m_node_name := "start"; m_run_id := "run";
           m_active := true; m_role := "assistant";
           m_state :=
             json_dumps (VDict {["draft" := VNum 1; "summary" := VStr "hel"]});
           m_running := true |})
  ∧ (predict_state partial_json_parse "thread" "agent" "run"
       (ActionExecutionArgsEvent "call-1" fragment_3)
       (set_predicted_state {["summary" := VStr "hel"]}
          (set_argument_buffer (fragment_1 +:+ fragment_2) tracking_state))
       {["id" := VStr "7"; "draft" := VNum 1]}).1
    = Returned (Some
        {| m_thread_id := "thread"; m_agent_name := "agent";
           m_node_name := "start"; m_run_id := "run";
           m_active := true; m_role := "assistant";
           m_state :=
             json_dumps (VDict {["draft" := VNum 1; "summary" := VStr "hello"]});
           m_running := true |}).
Proof.
  assert (lacks_argument "text" (partial_json_parse fragment_1)) as H1.
  { right. exists {["te" := VNone]}. split; vm_compute; reflexivity. }
  assert (partial_json_parse (fragment_1 +:+ fragment_2)
          = Some (VDict {["text" := VStr "hel"]})) as H2 by (vm_compute; reflexivity).
  assert (partial_json_parse ((fragment_1 +:+ fragment_2) +:+ fragment_3)
          = Some (VDict {["text" := VStr "hello"]})) as H3 by (vm_compute; reflexivity).
  pose proof (predict_state_streaming partial_json_parse "thread" "agent" "run"
                {["id" := VStr "7"; "draft" := VNum 1]} configured_state
                {["text" := VStr "hel"]} {["text" := VStr "hello"]}
                eq_refl eq_refl H1 H2 eq_refl H3 eq_refl) as H.
  cbv zeta in H. destruct H as (_ & _ & Hhel & _ & Hhello & _).
  split; [exact H1|]. split; [exact H2|]. split; [exact H3|].
  split.
  - vm_compute in Hhel. vm_compute. exact Hhel.
  - vm_compute in Hhello. vm_compute. exact Hhello.
Defined.

(** X21 on the tracked tool call of the scenario and an ill-formed text. *)
Lemma predict_state_parse_failure_witness :
  partial_json_parse (argument_buffer tracking_state +:+ malformed_arguments) = None
  ∧ predict_state partial_json_parse "thread" "agent" "run"
      (ActionExecutionArgsEvent "call-1" malformed_arguments) tracking_state ∅
    = (Returned None,
       set_argument_buffer (argument_buffer tracking_state +:+ malformed_arguments)
         tracking_state)
  ∧ handle_crewai_flow_event partial_json_parse
      (ActionExecutionArgsEvent "call-1" malformed_arguments)
      "thread" "agent" ∅ "run" tracking_state
    = (Returned (Some [ActionExecutionArgs "call-1" (Verbatim malformed_arguments)]),
       set_argument_buffer (argument_buffer tracking_state +:+ malformed_arguments)
         tracking_state).
Proof.
  assert (partial_json_parse (argument_buffer tracking_state +:+ malformed_arguments)
          = None) as Hfail by (vm_compute; reflexivity).
  split; [exact Hfail|].
  exact (predict_state_parse_failure partial_json_parse "thread" "agent" "run" "call-1"
           malformed_arguments tracking_state ∅ Hfail).
Defined.

(** C4 on the tracked tool call of the scenario and the text of an array
    that is cut off: the parser returns the list read so far, and the call
    raises. *)
Lemma predict_state_non_object_raises_witness :
  partial_json_parse (argument_buffer tracking_state +:+ array_prefix)
  = Some (VList [VNum 1; VNum 2])
  ∧ (predict_state partial_json_parse "thread" "agent" "run"
       (ActionExecutionArgsEvent "call-1" array_prefix) tracking_state ∅).1
    = Raised (AttributeError "'list' object has no attribute 'get'").
Proof.
  assert (partial_json_parse (argument_buffer tracking_state +:+ array_prefix)
          = Some (VList [VNum 1; VNum 2])) as Hparse by (vm_compute; reflexivity).
  split; [exact Hparse|].
  exact (predict_state_non_object_raises partial_json_parse "thread" "agent" "run"
           "call-1" array_prefix tracking_state ∅ "save" (VList [VNum 1; VNum 2])
           "summary" {| tool_name := "save"; tool_argument := Some "text" |} "text" []
           eq_refl eq_refl eq_refl eq_refl Hparse
           (λ d (H : VList [VNum 1; VNum 2] = VDict d),
              eq_ind (VList [VNum 1; VNum 2])
                (λ v, match v with VList _ => True | _ => False end) I (VDict d) H)).
Defined.

(** C2 on the complete arguments of the scenario, the flow state holding
    an identifier, a draft and an earlier summary: the snapshot holds the
    draft of the flow state and the predicted summary, not the earlier one,
    and no identifier. *)
Lemma predict_state_snapshot_witness :
  predict_state partial_json_parse "thread" "agent" "run"
    (ActionExecutionArgsEvent "call-1" complete_arguments) tracking_state
    {["id" := VStr "7"; "draft" := VNum 1; "summary" := VStr "old"]}
  = (Returned (Some
       {| m_thread_id := "thread"; m_agent_name := "agent";
          m_node_name := "start"; m_run_id := "run";
          m_active := true; m_role := "assistant";
          m_state :=
            json_dumps (VDict {["draft" := VNum 1; "summary" := VStr "hello"]});
          m_running := true |}),
     set_predicted_state {["summary" := VStr "hello"]}
       (set_argument_buffer complete_arguments tracking_state))
  ∧ key_updated partial_json_parse tracking_state complete_arguments = true
  ∧ ∃ d : gmap string value,
      Some {| m_thread_id := "thread"; m_agent_name := "agent";
              m_node_name := "start"; m_run_id := "run";
              m_active := true; m_role := "assistant";
              m_state :=
                json_dumps (VDict {["draft" := VNum 1; "summary" := VStr "hello"]});
              m_running := true |}
      = Some {| m_thread_id := "thread"; m_agent_name := "agent";
                m_node_name := node_name tracking_state; m_run_id := "run";
                m_active := true; m_role := "assistant";
                m_state := json_dumps (VDict d);
                m_running := true |}
      ∧ ∀ k, d !! k
             = if decide (k = "messages" ∨ k = "id") then None
               else match ({["summary" := VStr "hello"]} : gmap string value) !! k with
                    | Some v => Some v
                    | None =>
                        ({["id" := VStr "7"; "draft" := VNum 1;
                           "summary" := VStr "old"]} : gmap string value) !! k
                    end.
Proof.
  assert (predict_state partial_json_parse "thread" "agent" "run"
            (ActionExecutionArgsEvent "call-1" complete_arguments) tracking_state
            {["id" := VStr "7"; "draft" := VNum 1; "summary" := VStr "old"]}
          = (Returned (Some
               {| m_thread_id := "thread"; m_agent_name := "agent";
                  m_node_name := "start"; m_run_id := "run";
                  m_active := true; m_role := "assistant";
                  m_state :=
                    json_dumps
                      (VDict {["draft" := VNum 1; "summary" := VStr "hello"]});
                  m_running := true |}),
             set_predicted_state {["summary" := VStr "hello"]}
               (set_argument_buffer complete_arguments tracking_state))) as Hrun
    by (vm_compute; reflexivity).
  assert (key_updated partial_json_parse tracking_state complete_arguments = true)
    as Hkey by (vm_compute; reflexivity).
  split; [exact Hrun|]. split; [exact Hkey|].
  pose proof (proj1 (predict_state_snapshot partial_json_parse "thread" "agent" "run"
                       "call-1" complete_arguments tracking_state
                       {["id" := VStr "7"; "draft" := VNum 1; "summary" := VStr "old"]}
                       _ _ Hrun)) as H.
  exact H.
Defined.

(** C9 on an event of kind [custom]. *)
Lemma unknown_event_raises_witness :
  event_type (UnknownEvent "custom") = None
  ∧ ∃ type,
      UnknownEvent "custom" = UnknownEvent type
      ∧ handle_crewai_flow_event partial_json_parse (UnknownEvent "custom")
          "thread" "agent" ∅ "run" initial_execution_state
        = (Raised (ValueError ("Unknown event type: " +:+ type)), initial_execution_state).
Proof.
  split; [reflexivity|].
  exact (unknown_event_raises partial_json_parse (UnknownEvent "custom")
           "thread" "agent" ∅ "run" initial_execution_state eq_refl).
Defined.

(** C6 on the scenario of the specification with an event queued after the
    terminal one, the message history being kept as it is: the run
    completes, and the final snapshot holds the messages and no
    identifier. *)
Lemma execute_flow_final_snapshot_witness :
  ∃ yielded es,
    relay partial_json_parse "thread" (name flow_agent) "run"
      [(MethodExecutionStarted "a", scenario_flow_state);
       (EmitState {["x" := VNum 1]}, scenario_flow_state);
       (MethodExecutionFinished, scenario_flow_state)]
      initial_execution_state
    = (yielded, Waiting, es)
    ∧ execute_flow partial_json_parse (λ v, v) flow_agent (Some "thread") "run"
        ([(MethodExecutionStarted "a", scenario_flow_state);
          (EmitState {["x" := VNum 1]}, scenario_flow_state);
          (MethodExecutionFinished, scenario_flow_state)]
           ++ (FlowExecutionFinished, scenario_flow_state)
           :: [(MethodExecutionStarted "late", scenario_flow_state)])
        scenario_flow_state
      = (yielded ++
           [[AgentState
               {| m_thread_id := "thread"; m_agent_name := "agent";
                  m_node_name := node_name es; m_run_id := "run";
                  m_active := false; m_role := "assistant";
                  m_state :=
                    json_dumps
                      (VDict (delete "id"
                                (alter (λ v, v) "messages" scenario_flow_state)));
                  m_running := true |}]],
         Done).
Proof.
  eexists _, _.
  assert (relay partial_json_parse "thread" (name flow_agent) "run"
            [(MethodExecutionStarted "a", scenario_flow_state);
             (EmitState {["x" := VNum 1]}, scenario_flow_state);
             (MethodExecutionFinished, scenario_flow_state)]
            initial_execution_state
          = (_, Waiting, _)) as Hrelay by (vm_compute; reflexivity).
  split; [exact Hrelay|].
  exact (execute_flow_final_snapshot partial_json_parse (λ v, v) unit unit unit
           flow_agent "thread" "run" _ FlowExecutionFinished scenario_flow_state
           [(MethodExecutionStarted "late", scenario_flow_state)] scenario_flow_state
           _ _ (ex_intro _ tt eq_refl) Hrelay eq_refl).
Defined.

(** C8 on an agent of a valid name given neither mode, and on the flow-mode
    agent called without a thread identifier. *)
Lemma configuration_errors_witness :
  checked_agent_init "agent" None = Returned tt
  ∧ (∃ e, CrewAIAgent_init checked_agent_init "agent" None (@None unit) None
            (@None unit) (@None (CopilotKitConfig unit)) = Raised e)
  ∧ is_Some (flow flow_agent)
  ∧ ∃ batches,
      execute_flow partial_json_parse (λ v, v) flow_agent None "run" scenario_queue
        scenario_flow_state
      = (batches, Failed (ValueError "Thread ID is required")).
Proof.
  assert (is_Some (flow flow_agent)) as Hflow by (by eexists).
  split; [reflexivity|].
  split.
  - exact (proj2 (proj1 (proj2 (proj1 (configuration_errors partial_json_parse (λ v, v)
                                         unit unit unit checked_agent_init)
                                  "agent" None None None None None) tt eq_refl))
             (or_introl (conj eq_refl eq_refl))).
  - split; [exact Hflow|].
    exact (proj2 (proj1 (proj2 (configuration_errors partial_json_parse (λ v, v)
                                  unit unit unit checked_agent_init)
                           flow_agent None "run" scenario_queue scenario_flow_state
                           Hflow))
             eq_refl).
Defined.

(** * Further properties of the adapter *)

(** ** The default state merge *)

(** X1. What the default merge returns, read key by key.  Under
    ["copilotkit"] it holds a dictionary whose only entry, ["actions"], is
    a list as long as the incoming actions; its element at each position
    is a dictionary of exactly two entries: ["type"], the text [function],
    and ["function"], the action given at that position.  Under
    ["messages"] it holds the incoming messages, without the first one
    when that message has the role [system].  Every other key holds what
    the caller's state holds, and the caller's own ["messages"] and
    ["copilotkit"] are overwritten. *)
Theorem merge_state_lookup {F : Type} (state : gmap string value) (flow : F)
    (messages actions : list (gmap string value)) (agent_name : string) :
  let merged :=
    crewai_flow_default_merge_state state flow messages actions agent_name in
  ∃ wrapped kept : list (gmap string value),
    merged !! "copilotkit" = Some (VDict {["actions" := VList (VDict <$> wrapped)]})
    ∧ List.length wrapped = List.length actions
    ∧ (∀ i envelope, wrapped !! i = Some envelope →
         ∃ action,
           actions !! i = Some action
           ∧ envelope !! "type" = Some (VStr "function")
           ∧ envelope !! "function" = Some (VDict action)
           ∧ ∀ k, k ≠ "type" → k ≠ "function" → envelope !! k = None)
    ∧ merged !! "messages" = Some (VList (VDict <$> kept))
    ∧ (∀ m rest, messages = m :: rest → m !! "role" = Some (VStr "system") →
         kept = rest)
    ∧ ((∀ m rest, messages = m :: rest → m !! "role" ≠ Some (VStr "system")) →
         kept = messages)
    ∧ ∀ k, k ≠ "copilotkit" → k ≠ "messages" → merged !! k = state !! k.
Proof.
  cbn zeta. unfold crewai_flow_default_merge_state. cbn zeta.
  exists ((λ action : gmap string value,
             {["type" := VStr "function"; "function" := VDict action]}) <$> actions),
         (without_leading_system messages).
  split.
  { rewrite lookup_insert_eq. do 4 f_equal.
    rewrite <-list_fmap_compose. reflexivity. }
  split; [by rewrite length_fmap|].
  split.
  { intros i envelope Hi. apply list_lookup_fmap_Some in Hi as (action & -> & Hi).
    exists action. split; [done|].
    split; [by rewrite lookup_insert_eq|].
    split; [rewrite lookup_insert_ne by done; by rewrite lookup_singleton_eq|].
    intros k Ht Hf. rewrite lookup_insert_ne by done. by rewrite lookup_singleton_ne. }
  split.
  { rewrite lookup_insert_ne by done. by rewrite lookup_insert_eq. }
  split.
  { intros m rest -> Hrole. unfold without_leading_system, is_system. by rewrite Hrole. }
  split.
  { intros Hnot. unfold without_leading_system. destruct messages as [|m rest]; [done|].
    unfold is_system. specialize (Hnot m rest eq_refl).
    destruct (m !! "role") as [[| | | |r| |]|]; try done.
    destruct (String.eqb_spec r "system") as [->|]; done. }
  intros k Hc Hm. by rewrite !lookup_insert_ne.
Qed.

(** X2. A snapshot state computed from a default-merged state never shows
    the merged messages nor the caller's ["id"], always shows the
    ["copilotkit"] entry with the actions, and shows every other key of the
    caller's state. *)
Theorem merge_state_snapshot {F : Type} (state : gmap string value) (flow : F)
    (messages actions : list (gmap string value)) (agent_name : string) :
  filter_state (crewai_flow_default_merge_state state flow messages actions agent_name)
    None
  = <["copilotkit" := VDict {["actions" := VList (function_envelope <$> actions)]}]>
      (delete "id" (delete "messages" state)).
Proof.
  apply map_eq. intros k. rewrite lookup_filter_state.
  unfold crewai_flow_default_merge_state. cbn zeta. cbn [effective_exclude_keys].
  destruct (decide (k = "copilotkit")) as [->|Hc].
  - rewrite !lookup_insert_eq. case_decide as H; [|done].
    rewrite !elem_of_cons, elem_of_nil in H. destruct H as [|[|]]; done.
  - rewrite !(lookup_insert_ne _ "copilotkit") by done.
    destruct (decide (k = "messages")) as [->|Hm].
    + rewrite lookup_delete_ne by done. rewrite lookup_delete_eq.
      case_decide as H; [done|]. exfalso. apply H. apply elem_of_cons. by left.
    + rewrite lookup_insert_ne by done.
      destruct (decide (k = "id")) as [->|Hi].
      * rewrite lookup_delete_eq. case_decide as H; [done|].
        exfalso. apply H. rewrite !elem_of_cons. tauto.
      * rewrite !lookup_delete_ne by done. case_decide as H; [|done].
        rewrite !elem_of_cons, elem_of_nil in H. tauto.
Qed.

(** ** Crew mode *)

Section CrewProperties.

Variable parse : string → option value.
Variable crewai_flow_messages_to_copilotkit : value → value.
Variable copilotkit_message_to_crewai_crew : gmap string value → value.
Variables CrewClass FlowClass MergeState : Type.
Variable kickoff : CrewClass → gmap string crew_input → string.
Variable Agent_init : string → option string → outcome unit.

(** X3. The text handed to the crew comes from the last message: the
    value under its ["content"], else the value under its ["result"], else
    the empty text.  A message of role [system] that stands alone is
    dropped first, so it gives the empty text. *)
Theorem crew_inputs_text (self : CrewAIAgent CrewClass FlowClass MergeState)
    (before : list (gmap string value)) (m : gmap string value) :
  crew_input_key self ≠ "crew_chat_messages" →
  let text :=
    crew_inputs copilotkit_message_to_crewai_crew self (before ++ [m])
      !! crew_input_key self in
  (before = [] → m !! "role" = Some (VStr "system") →
   text = Some (InputValue (VStr "")))
  ∧ (before ≠ [] ∨ m !! "role" ≠ Some (VStr "system") →
     text = Some (InputValue
                    match m !! "content" with
                    | Some content => content
                    | None =>
                        match m !! "result" with
                        | Some result => result
                        | None => VStr ""
                        end
                    end)).
Proof.
  intros Hkey. cbn zeta. unfold crew_inputs. cbn zeta.
  rewrite lookup_insert_ne by done. rewrite lookup_insert_eq.
  assert (∀ l : list (gmap string value),
            crew_text_input (l ++ [m])
            = match m !! "content" with
              | Some content => content
              | None =>
                  match m !! "result" with
                  | Some result => result
                  | None => VStr ""
                  end
              end) as Hlast.
  { intros l. unfold crew_text_input. by rewrite last_snoc. }
  split.
  - intros -> Hrole. cbn [app without_leading_system]. unfold is_system.
    by rewrite Hrole.
  - intros Hor. do 2 f_equal.
    destruct before as [|b before]; cbn [app without_leading_system].
    + destruct Hor as [|Hrole]; [done|]. unfold is_system.
      assert (match m !! "role" with
              | Some (VStr r) => String.eqb r "system"
              | _ => false
              end = false) as ->.
      { destruct (m !! "role") as [[| | | |r| |]|]; try done.
        destruct (String.eqb_spec r "system") as [->|]; done. }
      apply (Hlast []).
    + destruct (is_system b); [apply Hlast|apply (Hlast (b :: before))].
Qed.

(** X4. When the agent's input key is ["crew_chat_messages"], the inputs
    of the crew hold the serialised chat messages under that key and
    nothing else: the text input is lost. *)
Theorem crew_inputs_collision (self : CrewAIAgent CrewClass FlowClass MergeState)
    (messages : list (gmap string value)) :
  crew_input_key self = "crew_chat_messages" →
  crew_inputs copilotkit_message_to_crewai_crew self messages
  = {["crew_chat_messages" :=
        InputJson (json_dumps (VList (copilotkit_message_to_crewai_crew <$>
                                        without_leading_system messages)))]}.
Proof.
  intros Hkey. unfold crew_inputs. cbn zeta. rewrite Hkey.
  by rewrite insert_insert_eq.
Qed.

(** X5. An agent as the constructor returns it has exactly one of [crew]
    and [flow], as given, and an input key that is never empty: the given
    key, or ["input"] when none or the empty one is given. *)
Theorem constructor_invariants name0 description0 (crew0 : option CrewClass)
    crew_input_key0 (flow0 : option FlowClass)
    (config : option (CopilotKitConfig MergeState)) self :
  CrewAIAgent_init Agent_init name0 description0 crew0 crew_input_key0 flow0 config
  = Returned self →
  crew self = crew0 ∧ flow self = flow0
  ∧ (is_Some (crew self) ↔ flow self = None)
  ∧ crew_input_key self ≠ ""
  ∧ crew_input_key self
    = match crew_input_key0 with
      | None | Some "" => "input"
      | Some key => key
      end.
Proof.
  unfold CrewAIAgent_init.
  destruct (Agent_init name0 description0) as [u|e]; [|discriminate].
  destruct crew0 as [c|], flow0 as [f|]; cbn; try discriminate; intros [= <-]; cbn.
  - split; [done|]. split; [done|]. split; [by split; [|intros _; eexists]|].
    split; [|done]. destruct crew_input_key0 as [[|a key]|]; done.
  - split; [done|]. split; [done|]. split; [split; [by intros [? ?]|done]|].
    split; [|done]. destruct crew_input_key0 as [[|a key]|]; done.
Qed.

(** X6. On an agent as the constructor returns it, [execute] runs the crew
    when a crew was given, yielding the single batch of the reply, and the
    flow otherwise; the errors [Crew is not set] and [Flow is not set] are
    never raised. *)
Theorem execute_dispatch name0 description0 (crew0 : option CrewClass)
    crew_input_key0 (flow0 : option FlowClass)
    (config : option (CopilotKitConfig MergeState)) self
    messages thread_id message_id run_id local_queue final_state :
  CrewAIAgent_init Agent_init name0 description0 crew0 crew_input_key0 flow0 config
  = Returned self →
  let run :=
    execute parse crewai_flow_messages_to_copilotkit copilotkit_message_to_crewai_crew
      kickoff self messages thread_id message_id run_id local_queue final_state in
  (∀ crew_class, crew0 = Some crew_class →
     run = ([[TextMessageStart message_id None;
              TextMessageContent message_id
                (kickoff crew_class
                   (crew_inputs copilotkit_message_to_crewai_crew self messages));
              TextMessageEnd message_id]],
            Done))
  ∧ (crew0 = None →
     run = execute_flow parse crewai_flow_messages_to_copilotkit self thread_id run_id
             local_queue final_state)
  ∧ run.2 ≠ Failed (ValueError "Crew is not set")
  ∧ run.2 ≠ Failed (ValueError "Flow is not set").
Proof.
  unfold CrewAIAgent_init.
  destruct (Agent_init name0 description0) as [u|e]; [|discriminate].
  destruct crew0 as [c|], flow0 as [f|]; cbn [is_None Bool.eqb]; try discriminate;
    intros [= <-]; cbn zeta; unfold execute, execute_crew; cbn [crew flow].
  - split; [by intros ? [= <-]|]. split; [done|]. by split.
  - split; [done|]. split; [done|].
    unfold execute_flow. cbn [flow name].
    destruct thread_id as [t|]; [|by split].
    destruct (relay parse t name0 run_id local_queue initial_execution_state)
      as [[yielded stop] es] eqn:Hrelay.
    destruct stop as [|x|]; cbn [snd]; try (by split).
    apply relay_failed in Hrelay as [[type ->]|[msg ->]]; by split.
Qed.

End CrewProperties.

(** X3 on a conversation of a system message and a user message: the
    crew is handed the text [hello]. *)
Lemma crew_inputs_text_witness :
  crew_inputs (λ m, VDict m) crew_agent
    ([{["role" := VStr "system"; "content" := VStr "be brief"]}]
       ++ [{["role" := VStr "user"; "content" := VStr "hello"]}])
    !! "input"
  = Some (InputValue (VStr "hello")).
Proof.
  assert (crew_input_key crew_agent ≠ "crew_chat_messages") as Hkey by discriminate.
  assert ([({["role" := VStr "system"; "content" := VStr "be brief"]}
             : gmap string value)] ≠ []) as Hbefore by discriminate.
  pose proof (proj2 (crew_inputs_text (λ m, VDict m) unit unit unit crew_agent
                       [{["role" := VStr "system"; "content" := VStr "be brief"]}]
                       {["role" := VStr "user"; "content" := VStr "hello"]}
                       Hkey)
                (or_introl Hbefore)) as H.
  vm_compute in H. vm_compute. exact H.
Defined.

(** X4 on the agent whose input key collides. *)
Lemma crew_inputs_collision_witness :
  crew_inputs (λ m, VDict m) colliding_agent
    [{["role" := VStr "user"; "content" := VStr "hello"]}]
  = {["crew_chat_messages" :=
        InputJson (json_dumps (VList ((λ m, VDict m) <$>
                     without_leading_system
                       [{["role" := VStr "user"; "content" := VStr "hello"]}])))]}.
Proof.
  apply (crew_inputs_collision (λ m, VDict m) unit unit unit colliding_agent).
  reflexivity.
Defined.

(** X5 on the construction of a crew-mode agent without an input key. *)
Lemma constructor_invariants_witness :
  CrewAIAgent_init checked_agent_init "agent" None (Some tt) None (@None unit)
    (@None (CopilotKitConfig unit))
  = Returned crew_agent
  ∧ crew_input_key crew_agent = "input".
Proof.
  assert (CrewAIAgent_init checked_agent_init "agent" None (Some tt) None (@None unit)
            (@None (CopilotKitConfig unit))
          = Returned crew_agent) as Hinit by reflexivity.
  split; [exact Hinit|].
  exact (proj2 (proj2 (proj2 (proj2
           (constructor_invariants unit unit unit checked_agent_init
              _ _ _ _ _ _ _ Hinit))))).
Defined.

(** X6 on the flow-mode agent called without a thread identifier. *)
Lemma execute_dispatch_witness :
  CrewAIAgent_init checked_agent_init "agent" None (@None unit) (Some "input") (Some tt)
    (@None (CopilotKitConfig unit))
  = Returned flow_agent
  ∧ (execute partial_json_parse (λ v, v) (λ m, VDict m) (λ _ _, "done") flow_agent
       [] None "message" "run" scenario_queue scenario_flow_state).2
    ≠ Failed (ValueError "Flow is not set").
Proof.
  assert (CrewAIAgent_init checked_agent_init "agent" None (@None unit) (Some "input")
            (Some tt)
            (@None (CopilotKitConfig unit))
          = Returned flow_agent) as Hinit by reflexivity.
  split; [exact Hinit|].
  exact (proj2 (proj2 (proj2
           (execute_dispatch partial_json_parse (λ v, v) (λ m, VDict m) unit unit unit
              (λ _ _, "done") checked_agent_init _ _ _ _ _ _ _ [] None "message" "run"
              scenario_queue
              scenario_flow_state Hinit)))).
Defined.

(** ** The predictor and the event mapper *)

Lemma string_app_nil_r (s : string) : s +:+ "" = s.
Proof.
  induction s as [|c s IH]; [done|].
  change (String c (s +:+ "") = String c s). by f_equal.
Qed.

Lemma string_app_assoc (s1 s2 s3 : string) : (s1 +:+ s2) +:+ s3 = s1 +:+ (s2 +:+ s3).
Proof.
  induction s1 as [|c s1 IH]; [done|].
  change (String c ((s1 +:+ s2) +:+ s3) = String c (s1 +:+ (s2 +:+ s3))). by f_equal.
Qed.

(** The loop never removes a key from the predicted state, however it
    ends. *)
Lemma predict_loop_keeps_keys call current_arguments items k :
  ∀ predicted emit_update,
    is_Some (predicted !! k) →
    is_Some ((predict_loop call current_arguments items predicted emit_update).1.2 !! k).
Proof.
  induction items as [|[k0 v0] rest IH]; intros predicted emit_update Hk; [done|].
  assert (∀ x, is_Some (<[k0 := x]> predicted !! k)) as Hins.
  { intros x. destruct (decide (k0 = k)) as [->|Hne].
    - rewrite lookup_insert_eq. by eexists.
    - by rewrite lookup_insert_ne. }
  cbn [predict_loop]. case_decide; [|by apply IH].
  destruct (tool_argument v0); [|by apply IH].
  destruct current_arguments; try done.
  cbn zeta. destruct (is_not_None _); by apply IH.
Qed.

(** When the parsed arguments are no dictionary and every entry for the
    current tool names an argument, the first such entry raises and nothing
    has been written. *)
Lemma predict_loop_non_dictionary call current_arguments items :
  ∀ predicted emit_update,
    (∀ d, current_arguments ≠ VDict d) →
    call ∈ map (λ config : string * PredictConfig, Some (tool_name config.2)) items →
    Forall (λ config : string * PredictConfig,
              Some (tool_name config.2) = call → is_Some (tool_argument config.2))
      items →
    predict_loop call current_arguments items predicted emit_update
    = (Some (AttributeError
               ("'" +:+ type_name current_arguments +:+ "' object has no attribute 'get'")),
       predicted, emit_update).
Proof.
  induction items as [|[k0 v0] rest IH]; intros predicted emit_update Hnot Hin Hall.
  { by apply elem_of_nil in Hin. }
  apply Forall_cons in Hall as [Hhead Hall]. cbn [snd] in Hhead.
  cbn [predict_loop]. destruct (decide (Some (tool_name v0) = call)) as [Hcall|Hcall].
  - destruct (Hhead Hcall) as [a ->].
    destruct current_arguments as [| | | | | |d]; try reflexivity.
    by destruct (Hnot d).
  - apply IH; [done| |done].
    cbn [map snd] in Hin. apply elem_of_cons in Hin as [Heq|Hin]; [|done].
    by destruct Hcall.
Qed.

Section MapperProperties.

Variable parse : string → option value.

(** X7. An argument fragment of a tool call that no configuration entry
    names (in particular when no tool call has started or the
    configuration is empty) is passed through alone: the handler returns
    the argument event, never a snapshot, never raises and never consults
    the parser; its one effect is the append to the buffer. *)
Theorem untracked_arguments_pass_through thread_id agent_name run_id id args es state :
  current_tool_call es = None ∨ predict_state_configuration es = [] ∨ ¬ tracked es →
  handle_crewai_flow_event parse (ActionExecutionArgsEvent id args)
    thread_id agent_name state run_id es
  = (Returned (Some [ActionExecutionArgs id (Verbatim args)]),
     set_argument_buffer (argument_buffer es +:+ args) es).
Proof.
  intros Hun.
  assert (¬ tracked es) as Hnot.
  { destruct Hun as [Hnone|[Hempty|Hnot]]; [| |done]; unfold tracked; intros Hin.
    - rewrite Hnone in Hin. apply list_elem_of_fmap in Hin as (c & [=] & _).
    - rewrite Hempty in Hin. by apply elem_of_nil in Hin. }
  cbn [handle_crewai_flow_event]. rewrite predict_state_args_unfold. cbn zeta.
  by rewrite decide_False.
Qed.

(** X8. The lookup on the parsed arguments is not guarded: when the parser
    returns a value that is no dictionary for a tracked tool call all of
    whose entries name an argument, the handler raises [AttributeError]
    instead of returning a batch; the fragment has been appended to the
    buffer and the predicted state is unchanged. *)
Theorem non_dictionary_arguments_raise thread_id agent_name run_id id args es state
    current_arguments :
  tracked es →
  parse (argument_buffer es +:+ args) = Some current_arguments →
  (∀ d, current_arguments ≠ VDict d) →
  Forall (λ config : string * PredictConfig,
            Some (tool_name config.2) = current_tool_call es →
            is_Some (tool_argument config.2))
    (predict_state_configuration es) →
  handle_crewai_flow_event parse (ActionExecutionArgsEvent id args)
    thread_id agent_name state run_id es
  = (Raised (AttributeError
               ("'" +:+ type_name current_arguments +:+ "' object has no attribute 'get'")),
     set_argument_buffer (argument_buffer es +:+ args) es).
Proof.
  intros Htracked Hparse Hnot Hall.
  cbn [handle_crewai_flow_event]. rewrite predict_state_args_unfold. cbn zeta.
  rewrite decide_True by done. rewrite Hparse.
  by rewrite (predict_loop_non_dictionary _ _ _ _ _ Hnot Htracked Hall).
Qed.

(** X9. Predicted keys are never dropped while a step runs: a step finish
    empties the predicted state, an argument fragment keeps every key it
    held (also when the handler raises), and every other event, a new
    tool-call start included, leaves it as it is. *)
Theorem predicted_keys_persist e thread_id agent_name state run_id es :
  let es' := (handle_crewai_flow_event parse e thread_id agent_name state run_id es).2 in
  match e with
  | MethodExecutionFinished => predicted_state es' = ∅
  | ActionExecutionArgsEvent _ _ =>
      ∀ k, is_Some (predicted_state es !! k) → is_Some (predicted_state es' !! k)
  | _ => predicted_state es' = predicted_state es
  end.
Proof.
  destruct e; try reflexivity.
  cbn zeta. intros k Hk. cbn [handle_crewai_flow_event].
  rewrite predict_state_args_unfold. cbn zeta.
  case_decide; [|done].
  destruct (parse _) as [current_arguments|]; [|done].
  pose proof (predict_loop_keeps_keys (current_tool_call es) current_arguments
                (predict_state_configuration es) k (predicted_state es) false Hk) as Hkeep.
  destruct (predict_loop _ _ _ _ _) as [[raised predicted] emit_update].
  destruct raised; [done|]. by destruct emit_update.
Qed.

(** An argument fragment extends the buffer and keeps the current tool
    call, however the handler ends. *)
Lemma handle_args_buffer_call thread_id agent_name run_id id args es state :
  let es' :=
    (handle_crewai_flow_event parse (ActionExecutionArgsEvent id args)
       thread_id agent_name state run_id es).2 in
  argument_buffer es' = argument_buffer es +:+ args
  ∧ current_tool_call es' = current_tool_call es.
Proof.
  cbn zeta. cbn [handle_crewai_flow_event]. rewrite predict_state_args_unfold. cbn zeta.
  case_decide; [|done].
  destruct (parse _) as [current_arguments|]; [|done].
  destruct (predict_loop _ _ _ _ _) as [[raised predicted] emit_update].
  destruct raised; [done|]. by destruct emit_update.
Qed.

(** X10. After a tool-call start, the buffer is the concatenation, in
    order, of the argument fragments handled since, whatever the parser
    and the configuration make of them; the current tool call stays the
    one that started. *)
Theorem feed_accumulates thread_id agent_name run_id id action_name parent state
    (fragments : list (string * gmap string value)) es :
  let started :=
    (handle_crewai_flow_event parse (ActionExecutionStartEvent id action_name parent)
       thread_id agent_name state run_id es).2 in
  let fed := feed parse thread_id agent_name run_id id fragments started in
  argument_buffer fed = foldr String.append "" fragments.*1
  ∧ current_tool_call fed = Some action_name.
Proof.
  cbn zeta.
  assert (∀ fs es0,
            argument_buffer (feed parse thread_id agent_name run_id id fs es0)
            = argument_buffer es0 +:+ foldr String.append "" fs.*1
            ∧ current_tool_call (feed parse thread_id agent_name run_id id fs es0)
              = current_tool_call es0) as Hfeed.
  { induction fs as [|[f st] fs IH]; intros es0.
    - cbn. by rewrite string_app_nil_r.
    - change (feed parse thread_id agent_name run_id id ((f, st) :: fs) es0)
        with (feed parse thread_id agent_name run_id id fs
                (handle_crewai_flow_event parse (ActionExecutionArgsEvent id f)
                   thread_id agent_name st run_id es0).2).
      destruct (IH (handle_crewai_flow_event parse (ActionExecutionArgsEvent id f)
                      thread_id agent_name st run_id es0).2) as [Hb Hc].
      destruct (handle_args_buffer_call thread_id agent_name run_id id f es0 st)
        as [Hb1 Hc1].
      rewrite Hb, Hc, Hb1, Hc1. split; [|done].
      cbn [fmap list_fmap fst foldr]. apply string_app_assoc. }
  destruct (Hfeed fragments
              (handle_crewai_flow_event parse
                 (ActionExecutionStartEvent id action_name parent)
                 thread_id agent_name state run_id es).2) as [Hb Hc].
  rewrite Hb, Hc. done.
Qed.

(** Every snapshot in a batch the handler returns is a snapshot of the
    run, at the node current after the event, running, and without
    ["messages"] and ["id"] in its state. *)
Lemma handle_snapshots e thread_id agent_name state run_id es batch es' :
  handle_crewai_flow_event parse e thread_id agent_name state run_id es
  = (Returned (Some batch), es') →
  Forall (handler_snapshot thread_id agent_name run_id (node_name es')) batch.
Proof.
  assert (∀ d : gmap string value,
            ∃ d', json_dumps (VDict (filter_state d None)) = json_dumps (VDict d')
                  ∧ d' !! "id" = None ∧ d' !! "messages" = None) as Hfiltered.
  { intros d. exists (filter_state d None). split; [done|].
    rewrite !lookup_filter_state. cbn [effective_exclude_keys].
    split; case_decide as H; try done; exfalso; apply H; rewrite !elem_of_cons; tauto. }
  destruct e; cbn [handle_crewai_flow_event]; try discriminate;
    try (intros [= <- <-]; repeat constructor; (done || apply Hfiltered)).
  - rewrite predict_state_args_unfold. cbn zeta.
    case_decide; [|intros [= <- <-]; by repeat constructor].
    destruct (parse _) as [current_arguments|]; [|intros [= <- <-]; by repeat constructor].
    destruct (predict_loop _ _ _ _ _) as [[raised predicted] emit_update].
    destruct raised; [discriminate|].
    destruct emit_update; intros [= <- <-]; repeat constructor; try done.
    apply Hfiltered.
Qed.

(** X11. Every agent-state snapshot the handler emits carries the run's
    thread, agent and run identifiers and the role [assistant], names the
    node current after the event, is marked running, and has neither
    ["messages"] nor ["id"] in its state. *)
Theorem handler_snapshots_of_the_run e thread_id agent_name state run_id es :
  match handle_crewai_flow_event parse e thread_id agent_name state run_id es with
  | (Returned (Some batch), es') =>
      Forall (handler_snapshot thread_id agent_name run_id (node_name es')) batch
  | _ => True
  end.
Proof.
  destruct (handle_crewai_flow_event parse e thread_id agent_name state run_id es)
    as [[[batch|]|x] es'] eqn:Hh; try done.
  by eapply handle_snapshots.
Qed.

(** X12. Only the method-started, method-finished and argument-fragment
    events read the flow state: on every other event the handler's result
    and effect are the same whatever the flow state is. *)
Theorem flow_state_independence e thread_id agent_name state1 state2 run_id es :
  reads_flow_state e = false →
  handle_crewai_flow_event parse e thread_id agent_name state1 run_id es
  = handle_crewai_flow_event parse e thread_id agent_name state2 run_id es.
Proof. destruct e; try discriminate; intros _; reflexivity. Qed.

(** The text and action events of a returned batch are the translation of
    the event. *)
Lemma handle_stream_events e thread_id agent_name state run_id es out es' :
  handle_crewai_flow_event parse e thread_id agent_name state run_id es
  = (Returned out, es') →
  List.filter is_stream_event (default [] out) = stream_events e.
Proof.
  destruct e; cbn [handle_crewai_flow_event]; try discriminate;
    try (intros [= <- <-]; reflexivity).
  destruct (predict_state _ _ _ _ _ _ _) as [[[m|]|x] es1] eqn:Hp; try discriminate;
    intros [= <- <-]; reflexivity.
Qed.

(** The node after an event: the one that starts, else the one before. *)
Lemma handle_node_name e thread_id agent_name state run_id es :
  node_name (handle_crewai_flow_event parse e thread_id agent_name state run_id es).2
  = match e with MethodExecutionStarted name => name | _ => node_name es end.
Proof.
  destruct e; try reflexivity.
  cbn [handle_crewai_flow_event].
  pose proof (predict_state_frame parse thread_id agent_name run_id
                (ActionExecutionArgsEvent action_execution_id args) es state)
    as (_ & _ & H & _).
  destruct (predict_state _ _ _ _ _ _ _) as [[r|x] es1]; exact H.
Qed.

End MapperProperties.

(** ** The run driver *)

Section DriverProperties.

Variable parse : string → option value.
Variable crewai_flow_messages_to_copilotkit : value → value.
Variables CrewClass FlowClass MergeState : Type.

(** X13. The relay loop over a queue that is extended: when the loop has
    ended on the first part, by a terminal event or by an exception, what
    is queued after it is never handled; when it is still waiting, it goes
    on with the extension from the state it has reached, the batches
    following in order. *)
Theorem relay_app thread_id agent_name run_id local_queue more es :
  relay parse thread_id agent_name run_id (local_queue ++ more) es
  = match relay parse thread_id agent_name run_id local_queue es with
    | (yielded, Waiting, es1) =>
        let '(yielded', stop, es2) := relay parse thread_id agent_name run_id more es1 in
        (yielded ++ yielded', stop, es2)
    | ended => ended
    end.
Proof.
  revert es. induction local_queue as [|[e state] rest IH]; intros es.
  - cbn [app relay].
    by destruct (relay parse thread_id agent_name run_id more es) as [[ys stop] es2].
  - cbn [app relay].
    destruct (handle_crewai_flow_event parse e thread_id agent_name state run_id es)
      as [[json_lines|x] es1]; [|done].
    destruct (is_finished es1); [done|].
    rewrite IH.
    destruct (relay parse thread_id agent_name run_id rest es1) as [[ys stop] es2].
    destruct stop; try done.
    destruct (relay parse thread_id agent_name run_id more es2) as [[ys' stop'] es3].
    by rewrite app_assoc.
Qed.

(** What a relay loop that does not raise has yielded and where it stands:
    the text and action events are the translations of the events taken
    from the queue, in order; the node is the last one that started. *)
Lemma relay_trace thread_id agent_name run_id local_queue :
  ∀ es yielded stop es',
    is_finished es = false →
    relay parse thread_id agent_name run_id local_queue es = (yielded, stop, es') →
    (∀ x, stop ≠ Failed x) →
    List.filter is_stream_event (List.concat yielded)
    = flat_map (λ x, stream_events x.1) (consumed local_queue)
    ∧ node_name es' = current_node (node_name es) (consumed local_queue).
Proof.
  induction local_queue as [|[e state] rest IH]; intros es yielded stop es' Hfin.
  { cbn. by intros [= <- _ <-] _. }
  cbn [relay consumed].
  pose proof (handle_is_finished parse e thread_id agent_name state run_id es) as Hf.
  pose proof (handle_node_name parse e thread_id agent_name state run_id es) as Hn.
  destruct (handle_crewai_flow_event parse e thread_id agent_name state run_id es)
    as [[json_lines|x] es1] eqn:Hh.
  2:{ intros [= _ <- _] Hstop. by destruct (Hstop x). }
  apply handle_stream_events in Hh.
  cbn [snd] in Hf, Hn. rewrite Hfin in Hf. cbn [orb] in Hf. rewrite Hf.
  assert (List.filter is_stream_event
            (List.concat match json_lines with Some b => [b] | None => [] end)
          = stream_events e) as Hyield.
  { rewrite <- Hh. destruct json_lines as [b|]; cbn; [|done]. by rewrite app_nil_r. }
  destruct (is_terminal e) eqn:Hterm.
  - intros [= <- _ <-] _. cbn [flat_map fst]. rewrite app_nil_r.
    split; [exact Hyield|]. unfold current_node. cbn [foldl fst]. exact Hn.
  - destruct (relay parse thread_id agent_name run_id rest es1)
      as [[ys stop1] es2] eqn:Hrest.
    intros [= <- <- <-] Hstop.
    destruct (IH es1 ys stop1 es2 Hf Hrest Hstop) as [Hys Hnode].
    split.
    + rewrite concat_app, List.filter_app, Hyield, Hys. done.
    + rewrite Hnode, Hn. unfold current_node. by cbn [foldl fst].
Qed.

(** X14. Order and count of the streamed events: when the relay loop does
    not raise, the text and action events it has yielded are, in order and
    without loss or repetition, the translations of the events queued up to
    and including the first terminal event; snapshots are interleaved but
    no text or action event is added, and the events queued after the
    terminal event contribute nothing. *)
Theorem relay_stream_order thread_id agent_name run_id local_queue es yielded stop es' :
  is_finished es = false →
  relay parse thread_id agent_name run_id local_queue es = (yielded, stop, es') →
  (∀ x, stop ≠ Failed x) →
  List.filter is_stream_event (List.concat yielded)
  = flat_map (λ x, stream_events x.1) (consumed local_queue).
Proof.
  intros Hfin Hrelay Hstop.
  by destruct (relay_trace thread_id agent_name run_id local_queue es yielded stop es'
                 Hfin Hrelay Hstop).
Qed.

(** Every snapshot the relay loop yields is a snapshot of the run without
    ["id"]. *)
Lemma relay_snapshots thread_id agent_name run_id local_queue :
  ∀ es yielded stop es',
    relay parse thread_id agent_name run_id local_queue es = (yielded, stop, es') →
    Forall (Forall (run_snapshot thread_id agent_name run_id)) yielded.
Proof.
  induction local_queue as [|[e state] rest IH]; intros es yielded stop es'.
  { cbn. intros [= <- _ _]. constructor. }
  cbn [relay].
  destruct (handle_crewai_flow_event parse e thread_id agent_name state run_id es)
    as [[json_lines|x] es1] eqn:Hh.
  2:{ intros [= <- _ _]. constructor. }
  assert (Forall (Forall (run_snapshot thread_id agent_name run_id))
            match json_lines with Some b => [b] | None => [] end) as Hbatch.
  { destruct json_lines as [b|]; [|constructor].
    constructor; [|constructor].
    eapply Forall_impl; [by eapply handle_snapshots|].
    intros [] ; cbn; try done.
    intros (? & ? & ? & ? & _ & _ & d & ? & ? & _). repeat split; try done.
    by exists d. }
  destruct (is_finished es1); [by intros [= <- _ _]|].
  destruct (relay parse thread_id agent_name run_id rest es1)
    as [[ys stop1] es2] eqn:Hrest.
  intros [= <- _ _]. apply Forall_app. split; [done|]. by eapply IH.
Qed.

(** X15. No snapshot of a run shows the flow's ["id"], and every one
    carries the identifiers of the run: each agent-state snapshot in each
    batch [execute_flow] yields, the final one included, has the run's
    thread identifier, agent name and run identifier, the role
    [assistant], and a state without the key ["id"]. *)
Theorem execute_flow_snapshots (self : CrewAIAgent CrewClass FlowClass MergeState)
    thread_id run_id local_queue final_state :
  Forall (Forall (run_snapshot thread_id (name self) run_id))
    (execute_flow parse crewai_flow_messages_to_copilotkit self (Some thread_id) run_id
       local_queue final_state).1.
Proof.
  unfold execute_flow. destruct (flow self); [|constructor].
  destruct (relay parse thread_id (name self) run_id local_queue initial_execution_state)
    as [[yielded stop] es] eqn:Hrelay.
  apply relay_snapshots in Hrelay.
  destruct stop; cbn [fst]; try done.
  apply Forall_app. split; [done|].
  repeat constructor; cbn; try done.
  exists (filter_state (alter crewai_flow_messages_to_copilotkit "messages" final_state)
            (Some ["id"])).
  split; [done|]. rewrite lookup_filter_state. cbn [effective_exclude_keys].
  case_decide as H; [done|]. exfalso. apply H. apply elem_of_cons. by left.
Qed.

(** X16. A run whose queue holds no terminal event never completes:
    [execute_flow] ends waiting on the queue or by an exception, and the
    final snapshot is not yielded. *)
Theorem execute_flow_needs_terminal (self : CrewAIAgent CrewClass FlowClass MergeState)
    thread_id run_id local_queue final_state :
  Forall (λ x : event_data * gmap string value, is_terminal x.1 = false) local_queue →
  (execute_flow parse crewai_flow_messages_to_copilotkit self thread_id run_id
     local_queue final_state).2 ≠ Done.
Proof.
  intros Hnone. unfold execute_flow.
  destruct (flow self); [|done]. destruct thread_id as [t|]; [|done].
  destruct (relay parse t (name self) run_id local_queue initial_execution_state)
    as [[yielded stop] es] eqn:Hrelay.
  destruct stop; try done. exfalso.
  destruct (relay_done parse t (name self) run_id local_queue initial_execution_state
              yielded es eq_refl Hrelay)
    as (before & e & state & rest & -> & Hterm & _).
  apply Forall_app in Hnone as [_ Hnone]. apply Forall_cons in Hnone as [Hnone _].
  cbn in Hnone. congruence.
Qed.

(** X17. The final snapshot of a completed run is inactive and names the
    last step that started before the terminal event, or [start] when no
    step started. *)
Theorem execute_flow_final_node (self : CrewAIAgent CrewClass FlowClass MergeState)
    thread_id run_id local_queue final_state batches :
  execute_flow parse crewai_flow_messages_to_copilotkit self thread_id run_id
    local_queue final_state = (batches, Done) →
  ∃ m, last batches = Some [AgentState m]
       ∧ m_active m = false
       ∧ m_node_name m = current_node "start" (consumed local_queue).
Proof.
  unfold execute_flow. destruct (flow self); [|discriminate].
  destruct thread_id as [t|]; [|discriminate].
  destruct (relay parse t (name self) run_id local_queue initial_execution_state)
    as [[yielded stop] es] eqn:Hrelay.
  destruct stop; try discriminate. intros [= <-].
  eexists. rewrite last_snoc. split; [reflexivity|]. split; [reflexivity|].
  cbn. eapply (relay_trace t (name self) run_id local_queue initial_execution_state);
    [done|exact Hrelay|done].
Qed.

End DriverProperties.

(** ** The further properties at concrete inputs *)

(** X7 on a run in which no tool call has started. *)
Lemma untracked_arguments_pass_through_witness :
  current_tool_call initial_execution_state = None
  ∧ handle_crewai_flow_event partial_json_parse
      (ActionExecutionArgsEvent "call-1" fragment_1)
      "thread" "agent" ∅ "run" initial_execution_state
    = (Returned (Some [ActionExecutionArgs "call-1" (Verbatim fragment_1)]),
       set_argument_buffer (argument_buffer initial_execution_state +:+ fragment_1)
         initial_execution_state).
Proof.
  split; [reflexivity|].
  apply (untracked_arguments_pass_through partial_json_parse). by left.
Defined.

(** X8 on the tracked tool call of the scenario and the text of an empty
    array. *)
Lemma non_dictionary_arguments_raise_witness :
  empty_array_parser (argument_buffer tracking_state +:+ "[]") = Some (VList [])
  ∧ handle_crewai_flow_event empty_array_parser (ActionExecutionArgsEvent "call-1" "[]")
      "thread" "agent" ∅ "run" tracking_state
    = (Raised (AttributeError
                 ("'" +:+ type_name (VList []) +:+ "' object has no attribute 'get'")),
       set_argument_buffer (argument_buffer tracking_state +:+ "[]") tracking_state).
Proof.
  split; [reflexivity|].
  apply (non_dictionary_arguments_raise empty_array_parser).
  - unfold tracked. cbn. apply elem_of_cons. by left.
  - reflexivity.
  - discriminate.
  - repeat constructor. cbn. intros _. by eexists.
Defined.

(** X12 on an emit-state event and two flow states. *)
Lemma flow_state_independence_witness :
  handle_crewai_flow_event partial_json_parse (EmitState {["x" := VNum 1]})
    "thread" "agent" ∅ "run" initial_execution_state
  = handle_crewai_flow_event partial_json_parse (EmitState {["x" := VNum 1]})
      "thread" "agent" scenario_flow_state "run" initial_execution_state.
Proof.
  apply (flow_state_independence partial_json_parse). reflexivity.
Defined.

(** X14 on the scenario queue followed by a message that comes too late. *)
Lemma relay_stream_order_witness :
  ∃ yielded es',
    relay partial_json_parse "thread" "agent" "run"
      (scenario_queue ++ [(EmitMessage "m" "late", scenario_flow_state)])
      initial_execution_state
    = (yielded, Done, es')
    ∧ List.filter is_stream_event (List.concat yielded)
      = flat_map (λ x, stream_events x.1)
          (consumed (scenario_queue ++ [(EmitMessage "m" "late", scenario_flow_state)])).
Proof.
  eexists _, _.
  assert (relay partial_json_parse "thread" "agent" "run"
            (scenario_queue ++ [(EmitMessage "m" "late", scenario_flow_state)])
            initial_execution_state
          = (_, Done, _)) as Hrelay by (vm_compute; reflexivity).
  split; [exact Hrelay|].
  apply (relay_stream_order partial_json_parse "thread" "agent" "run" _
           initial_execution_state _ Done _ eq_refl Hrelay).
  discriminate.
Defined.

(** X16 on a queue that stops after a step has started. *)
Lemma execute_flow_needs_terminal_witness :
  (execute_flow partial_json_parse (λ v, v) flow_agent (Some "thread") "run"
     [(MethodExecutionStarted "a", scenario_flow_state)] scenario_flow_state).2
  ≠ Done.
Proof.
  apply (execute_flow_needs_terminal partial_json_parse (λ v, v) unit unit unit).
  repeat constructor.
Defined.

(** X17 on the scenario of the specification. *)
Lemma execute_flow_final_node_witness :
  ∃ batches,
    execute_flow partial_json_parse (λ v, v) flow_agent (Some "thread") "run"
      scenario_queue scenario_flow_state
    = (batches, Done)
    ∧ ∃ m, last batches = Some [AgentState m]
           ∧ m_active m = false
           ∧ m_node_name m = current_node "start" (consumed scenario_queue).
Proof.
  eexists.
  assert (execute_flow partial_json_parse (λ v, v) flow_agent (Some "thread") "run"
            scenario_queue scenario_flow_state
          = (_, Done)) as Hrun by (vm_compute; reflexivity).
  split; [exact Hrun|].
  exact (execute_flow_final_node partial_json_parse (λ v, v) unit unit unit
           flow_agent (Some "thread") "run" scenario_queue scenario_flow_state _ Hrun).
Defined.

(** ** Filtering and merging *)

(** X19. Filtering distributes over the dictionary merge: filtering the
    merge of two dictionaries gives the merge of the two filtered
    dictionaries, for every exclusion list. *)
Theorem filter_state_merge (state predicted : gmap string value)
    (exclude_keys : option (list string)) :
  filter_state (merge state predicted) exclude_keys
  = merge (filter_state state exclude_keys) (filter_state predicted exclude_keys).
Proof.
  apply map_eq. intros k. unfold merge.
  rewrite lookup_filter_state, !lookup_union, !lookup_filter_state.
  by case_decide.
Qed.

(** X20. Dropping ["messages"] before calling [filter_state] with its
    default exclusion list, as the method-started and method-finished
    branches do, changes nothing: the default list removes that key
    already. *)
Theorem without_messages_redundant (state : gmap string value) :
  filter_state (without_messages state) None = filter_state state None.
Proof.
  apply map_eq. intros k.
  rewrite !lookup_filter_state, lookup_without_messages. cbn [effective_exclude_keys].
  case_decide as H; [done|]. case_decide as Hm; [|done].
  exfalso. apply H. rewrite Hm. apply elem_of_cons. by left.
Qed.

(** X18 on the complete arguments of the scenario. *)
Lemma predict_state_writes_witness :
  ∃ r es',
    predict_state partial_json_parse "thread" "agent" "run"
      (ActionExecutionArgsEvent "call-1" complete_arguments) tracking_state ∅
    = (Returned r, es')
    ∧ predicted_state es' !! "summary"
      = Some (written_value (VDict {["text" := VStr "hello"]})
                {| tool_name := "save"; tool_argument := Some "text" |}).
Proof.
  eexists _, _.
  assert (predict_state partial_json_parse "thread" "agent" "run"
            (ActionExecutionArgsEvent "call-1" complete_arguments) tracking_state ∅
          = (Returned _, _)) as Hrun by (vm_compute; reflexivity).
  split; [exact Hrun|].
  eapply (predict_state_writes partial_json_parse). 2: exact Hrun.
  - cbn. repeat constructor. by intros ?%elem_of_nil.
  - unfold tracked. cbn. apply elem_of_cons. by left.
  - exact (proj2 (proj2 partial_json_parse_fragments)).
  - cbn. apply elem_of_cons. by left.
  - vm_compute. reflexivity.
Defined.
